(** * Movie Portal: the /api/movies route handlers and the page's list state

    A shallow embedding of [src/app/api/movies/route.ts] (the four handlers
    GET, POST, PUT and DELETE) and of the state reconciliation done by
    [src/app/page.tsx] (handleSubmit, handleDelete), followed by the
    properties of the written specification that can be settled on them.

    JavaScript strings are sequences of UTF-16 code units; a request body
    is whatever [JSON.parse] yields; a handler is a computation that
    threads the record store and may throw. *)

From Stdlib Require Import List String Ascii Bool ZArith NArith Lia.
From Stdlib Require Import DecimalString DecimalN DecimalFacts.
Import ListNotations.

Local Open Scope Z_scope.

Set Warnings "-register-all".

(* ================================================================== *)
(** ** JavaScript strings *)
(* ================================================================== *)

Module JS.

(** A string is its list of UTF-16 code units. *)
Definition jsstring := list N.

(** The code units of an ASCII literal of the source. *)
Definition lit (s : string) : jsstring :=
  map N_of_ascii (list_ascii_of_string s).

Definition jsstring_eqb (a b : jsstring) : bool :=
  if list_eq_dec N.eq_dec a b then true else false.

Definition comma : N := 44%N.

(** WhiteSpace and LineTerminator of ECMA-262, the code units removed by
    [String.prototype.trim] and skipped by [parseInt]. *)
Definition isWhiteSpace (c : N) : bool :=
  ((9 <=? c) && (c <=? 13)                  (* TAB LF VT FF CR *)
   || (c =? 32)                             (* SPACE *)
   || (c =? 160)                            (* NO-BREAK SPACE *)
   || (c =? 5760)                           (* U+1680 *)
   || ((8192 <=? c) && (c <=? 8202))        (* U+2000 .. U+200A *)
   || (c =? 8232) || (c =? 8233)            (* LS, PS *)
   || (c =? 8239) || (c =? 8287)            (* U+202F, U+205F *)
   || (c =? 12288)                          (* U+3000 *)
   || (c =? 65279))%N.                      (* U+FEFF *)

Fixpoint dropWhile {A} (p : A -> bool) (l : list A) : list A :=
  match l with
  | [] => []
  | x :: l' => if p x then dropWhile p l' else l
  end.

Fixpoint takeWhile {A} (p : A -> bool) (l : list A) : list A :=
  match l with
  | [] => []
  | x :: l' => if p x then x :: takeWhile p l' else []
  end.

Definition trimStart (s : jsstring) : jsstring := dropWhile isWhiteSpace s.
Definition trimEnd (s : jsstring) : jsstring :=
  rev (dropWhile isWhiteSpace (rev s)).

(** [s.trim()] *)
Definition trim (s : jsstring) : jsstring := trimEnd (trimStart s).

(** [s.split(sep)] for a one-code-unit separator: the segments between the
    occurrences of [sep], in order; the empty string gives one empty
    segment. *)
Fixpoint split (sep : N) (s : jsstring) : list jsstring :=
  match s with
  | [] => [[]]
  | c :: s' =>
      if (c =? sep)%N then [] :: split sep s'
      else match split sep s' with
           | seg :: rest => (c :: seg) :: rest
           | [] => [[c]]
           end
  end.

(** [l.join(sep)] on strings. *)
Fixpoint join (sep : jsstring) (l : list jsstring) : jsstring :=
  match l with
  | [] => []
  | [x] => x
  | x :: rest => x ++ sep ++ join sep rest
  end.

(* ------------------------------------------------------------------ *)
(** ** Values *)

(** The values a handler meets: [undefined] (a property that is not
    there) and what [JSON.parse] builds.  A number is carried by its
    canonical rendering [Number::toString], which determines the double up
    to the sign of zero: the handlers observe a number of the request only
    through [ToBoolean] and [ToString].  An object is the list of its own
    properties; the first binding of a key is the one in force. *)
Inductive value :=
| Undefined
| Null
| Bool (b : bool)
| Num (rendering : jsstring)
| Str (s : jsstring)
| Arr (elems : list value)
| Obj (props : list (jsstring * value)).

(** [ToBoolean]: [undefined], [null], [false], zero and the empty string
    are falsy; every array and object is truthy. *)
Definition truthy (v : value) : bool :=
  match v with
  | Undefined | Null => false
  | Bool b => b
  | Num r => negb (jsstring_eqb r (lit "0"))
  | Str s => match s with [] => false | _ => true end
  | Arr _ | Obj _ => true
  end.

(** [typeof v === 'string'] *)
Definition is_string (v : value) : bool :=
  match v with Str _ => true | _ => false end.

Fixpoint lookup (k : jsstring) (props : list (jsstring * value)) : value :=
  match props with
  | [] => Undefined
  | (k', v) :: rest => if jsstring_eqb k k' then v else lookup k rest
  end.

(** [v.k] for the keys the handlers read ([id], [title], [actors],
    [year]), on a value that is neither [undefined] nor [null]: an own
    property of an object, [undefined] on anything else. *)
Definition get (v : value) (k : string) : value :=
  match v with
  | Obj props => lookup (lit k) props
  | _ => Undefined
  end.

(** Whether an object has an own property of that name. *)
Definition has_own (k : jsstring) (props : list (jsstring * value)) : bool :=
  existsb (fun p => jsstring_eqb k (fst p)) props.

(** The texts of the elements of an array, when none of them throws. *)
Fixpoint all_some {A} (l : list (option A)) : option (list A) :=
  match l with
  | [] => Some []
  | Some x :: rest =>
      match all_some rest with
      | Some xs => Some (x :: xs)
      | None => None
      end
  | None :: _ => None
  end.

(** [ToString], as applied by [parseInt] to its argument; [None] when it
    throws a TypeError.  An array is joined with commas, [null] and
    [undefined] elements rendered empty.  An object goes through
    [OrdinaryToPrimitive]: what [JSON.parse] builds holds no function, so
    an own [toString] property is not callable, the inherited [valueOf]
    returns the object itself, and the conversion throws; without an own
    [toString] the inherited one answers "[object Object]". *)
Fixpoint ToString (v : value) : option jsstring :=
  match v with
  | Undefined => Some (lit "undefined")
  | Null => Some (lit "null")
  | Bool true => Some (lit "true")
  | Bool false => Some (lit "false")
  | Num r => Some r
  | Str s => Some s
  | Arr l =>
      match all_some
              (map (fun e => match e with
                             | Undefined | Null => Some []
                             | _ => ToString e
                             end) l) with
      | Some texts => Some (join [comma] texts)
      | None => None
      end
  | Obj props =>
      if has_own (lit "toString") props then None
      else Some (lit "[object Object]")
  end.

(** A Number computed by the handler: [NaN], an infinity, or a double
    that holds an integer, given by that integer.  The sign of zero is not
    kept. *)
Inductive number := NaN | Infinity (negative : bool) | Finite (z : Z).

(** The Number for a mathematical integer: the integer itself below 2^53
    in absolute value, otherwise the nearest double (53 significant bits,
    ties to the even one), and an infinity from 2^1024 on. *)
Definition toDouble (z : Z) : number :=
  let a := Z.abs z in
  if a <? 2 ^ 53 then Finite z
  else
    let e := Z.log2 a - 52 in
    let q := a / 2 ^ e in
    let r := a mod 2 ^ e in
    let half := 2 ^ (e - 1) in
    let q' := if (half <? r) || ((r =? half) && Z.odd q) then q + 1 else q in
    let m := q' * 2 ^ e in
    if 2 ^ 1024 <=? m then Infinity (z <? 0)
    else Finite (if z <? 0 then - m else m).

Definition isDigit (c : N) : bool := ((48 <=? c) && (c <=? 57))%N.

Definition digitsValue (ds : jsstring) : Z :=
  fold_left (fun acc d => 10 * acc + (Z.of_N d - 48)) ds 0.

(** [parseInt] on the text of its argument: skip leading white space,
    read an optional sign, then the longest run of decimal digits; no
    digit gives [NaN], and the digits give the Number for their value
    (ECMA-262 lets an implementation zero the digits after the 20th
    significant one; the value is taken exactly here, as V8 does). *)
Definition parseDigits (text : jsstring) : number :=
  let s := trimStart text in
  let '(negative, s') :=
    match s with
    | c :: r => if (c =? 45)%N then (true, r)
                else if (c =? 43)%N then (false, r)
                else (false, s)
    | [] => (false, [])
    end in
  match takeWhile isDigit s' with
  | [] => NaN
  | ds => toDouble (if negative then - digitsValue ds else digitsValue ds)
  end.

(** [parseInt(v, 10)]: [ToString] first, which may throw ([None]), then
    the digits of the text. *)
Definition parseInt (v : value) : option number :=
  match ToString v with
  | Some text => Some (parseDigits text)
  | None => None
  end.

(** [n.toString()] and the text [JSON.stringify] writes for a Number that
    holds an integer: the decimal digits, after a minus sign when
    negative.  This is the text ECMA-262 gives for the integers a double
    holds exactly, those below 2^53 in absolute value; the statements that
    rest on it carry that bound. *)
Definition NumberToString (n : number) : jsstring :=
  match n with
  | NaN => lit "NaN"
  | Infinity false => lit "Infinity"
  | Infinity true => lit "-Infinity"
  | Finite z =>
      (if z <? 0 then [45%N] else [])
      ++ lit (NilEmpty.string_of_uint (N.to_uint (Z.abs_N z)))
  end.

(** A Number as it arrives after [JSON.stringify] and [JSON.parse]:
    [NaN] and the infinities are written [null]. *)
Definition json_number (n : number) : value :=
  match n with
  | NaN | Infinity _ => Null
  | Finite _ => Num (NumberToString n)
  end.

End JS.
Import JS.

(* ================================================================== *)
(** ** Records, responses and the store client *)
(* ================================================================== *)

(** [type Movie] of page.tsx: what the store returns and the page lists. *)
Record Movie := {
  id : jsstring;
  title : jsstring;
  actors : list jsstring;
  year : Z
}.

(** The [data] object the handlers hand to [prisma.movie.create] and
    [prisma.movie.update]: [title] is the request's value as it came,
    [actors] the split string or the request's value, [year] what
    [parseInt] returned. *)
Record MovieData := {
  data_title : value;
  data_actors : value;
  data_year : number
}.

(** JSON bodies the handlers send. *)
Inductive Json :=
| ErrorJson (error : string)
| MessageJson (message : string)
| MovieJson (movie : Movie)
| MoviesJson (movies : list Movie).

Record Response := {
  status : Z;
  body : Json
}.

(** [NextResponse.json(body, { status })]; the status defaults to 200. *)
Definition NextResponse_json (b : Json) (st : option Z) : Response :=
  {| status := match st with Some n => n | None => 200 end; body := b |}.

(** A request, as far as the handlers read it: the outcome of
    [await req.json()], [None] when the body is not JSON text. *)
Record Request := { parsed_body : option value }.

Definition request (v : value) : Request := {| parsed_body := Some v |}.

(** What can be thrown inside a handler. *)
Inductive exn :=
| SyntaxError        (* req.json() on a body that is not JSON *)
| TypeError          (* destructuring null; ToString of an object *)
| NotFound           (* the store has no record with the given id *)
| PersistenceError.  (* the store is unreachable or rejects the operation *)

(** An awaited computation over the store [S]: it completes normally or
    throws, and leaves a store. *)
Inductive completion (A : Type) :=
| Normal (a : A)
| Throw (e : exn).
Arguments Normal {A} a.
Arguments Throw {A} e.

Definition Async (S A : Type) : Type := S -> completion A * S.

Definition ret {S A} (a : A) : Async S A := fun s => (Normal a, s).

Definition throw {S A} (e : exn) : Async S A := fun s => (Throw e, s).

Definition bind {S A B} (m : Async S A) (f : A -> Async S B) : Async S B :=
  fun s =>
    match m s with
    | (Normal a, s') => f a s'
    | (Throw e, s') => (Throw e, s')
    end.

(** [try { m } catch (err) { h err }] *)
Definition try_catch {S A} (m : Async S A) (h : exn -> Async S A)
  : Async S A :=
  fun s =>
    match m s with
    | (Normal a, s') => (Normal a, s')
    | (Throw e, s') => h e s'
    end.

Declare Scope async_scope.
Delimit Scope async_scope with async.
Notation "x <- m ;; k" := (bind m (fun x => k))
  (at level 61, m at next level, right associativity) : async_scope.
Notation "'try' m 'catch' h" := (try_catch m h)
  (at level 62, m at level 61, h at level 9) : async_scope.

(** [await req.json()] *)
Definition req_json {S} (req : Request) : Async S value :=
  match parsed_body req with
  | Some v => ret v
  | None => throw SyntaxError
  end.

(** A built-in that returns, or throws a TypeError ([None]). *)
Definition throwing {S A} (r : option A) : Async S A :=
  match r with
  | Some a => ret a
  | None => throw TypeError
  end.

(** The check a destructuring [const { ... } = v] starts with. *)
Definition RequireObjectCoercible {S} (v : value) : Async S unit :=
  match v with
  | Undefined | Null => throw TypeError
  | _ => ret tt
  end.

(** [prisma.movie]: the four store operations the handlers call.  The
    client is imported, not defined, by route.ts; the handlers are written
    against this interface and hold for every implementation of it. *)
Record MovieDelegate (S : Type) := {
  findMany : Async S (list Movie);
  create : MovieData -> Async S Movie;
  update : value -> MovieData -> Async S Movie;   (* where: { id }, data *)
  delete : value -> Async S Movie                 (* where: { id } *)
}.
Arguments findMany {S}.
Arguments create {S}.
Arguments update {S}.
Arguments delete {S}.

(* ================================================================== *)
(** ** route.ts *)
(* ================================================================== *)

(** The handlers, statement by statement.  [console.log] and
    [console.error] write to the log only and are left out.  The [data]
    object is built before the store is called, so a [parseInt] that
    throws leaves the store uncalled. *)
Section Route.

Context {S : Type} (prisma : MovieDelegate S).

Local Open Scope async_scope.
Local Open Scope string_scope.

(** [actors] as both POST and PUT pass it on. *)
Definition actors_data (actors : value) : value :=
  match actors with
  | Str s => Arr (map Str (map trim (split comma s)))
  | _ => actors
  end.

Definition GET : Async S Response :=
  try (
    movies <- findMany prisma ;;
    ret (NextResponse_json (MoviesJson movies) None)
  ) catch (fun err =>
    ret (NextResponse_json (ErrorJson "Failed to fetch movies") (Some 500))).

Definition POST (req : Request) : Async S Response :=
  try (
    body <- req_json req ;;
    _ <- RequireObjectCoercible body ;;
    let title := get body "title" in
    let actors := get body "actors" in
    let year := get body "year" in
    if negb (truthy title) || negb (truthy actors) || negb (truthy year) then
      ret (NextResponse_json (ErrorJson "Missing required fields") (Some 400))
    else
      parsed <- throwing (parseInt year) ;;
      newMovie <- create prisma
                    {| data_title := title;
                       data_actors := actors_data actors;
                       data_year := parsed |} ;;
      ret (NextResponse_json (MovieJson newMovie) (Some 201))
  ) catch (fun err =>
    ret (NextResponse_json (ErrorJson "Failed to add movie") (Some 500))).

Definition PUT (req : Request) : Async S Response :=
  try (
    body <- req_json req ;;
    _ <- RequireObjectCoercible body ;;
    let id := get body "id" in
    let title := get body "title" in
    let actors := get body "actors" in
    let year := get body "year" in
    if negb (truthy id) || negb (truthy title) || negb (truthy actors)
       || negb (truthy year) then
      ret (NextResponse_json (ErrorJson "Missing required fields") (Some 400))
    else
      parsed <- throwing (parseInt year) ;;
      updatedMovie <- update prisma id
                        {| data_title := title;
                           data_actors := actors_data actors;
                           data_year := parsed |} ;;
      ret (NextResponse_json (MovieJson updatedMovie) (Some 200))
  ) catch (fun err =>
    ret (NextResponse_json (ErrorJson "Failed to update movie") (Some 500))).

Definition DELETE (req : Request) : Async S Response :=
  try (
    body <- req_json req ;;
    _ <- RequireObjectCoercible body ;;
    let id := get body "id" in
    if negb (truthy id) then
      ret (NextResponse_json (ErrorJson "Missing movie ID") (Some 400))
    else
      _ <- delete prisma id ;;
      ret (NextResponse_json (MessageJson "Movie deleted successfully")
             (Some 200))
  ) catch (fun err =>
    ret (NextResponse_json (ErrorJson "Failed to delete movie") (Some 500))).

End Route.

(* ================================================================== *)
(** ** The record store *)
(* ================================================================== *)

(** The Prisma client is generated from a schema that route.ts only
    imports.  [Store] is a store as sections 3 and 4.1 of the
    specification describe it: typed records, identifiers assigned on
    creation and never reused, [NotFound] on an unknown identifier. *)
Module Store.

(** Modelled from the spec: the store's state, missing from the sources
    (the schema and client behind [prisma.movie]).  The records in
    store-defined order, and the number of identifiers handed out. *)
Record Db := {
  collection : list Movie;
  minted : N
}.

Definition empty : Db := {| collection := []; minted := 0 |}.

(** Modelled from the spec: the identifier assigned by the store (opaque,
    unique, non-empty); here the decimal rendering of a counter. *)
Definition oid (n : N) : jsstring :=
  lit (NilEmpty.string_of_uint (N.to_uint n)).

Fixpoint strings_of (l : list value) : option (list jsstring) :=
  match l with
  | [] => Some []
  | Str s :: rest =>
      match strings_of rest with
      | Some ss => Some (s :: ss)
      | None => None
      end
  | _ :: _ => None
  end.

(** Modelled from the spec: the typing of a record (section 3: [title]
    text, [actors] a sequence of text values, [year] an integer).  Data of
    another shape, a [NaN] or infinite year included, is rejected by the
    store. *)
Definition typed (d : MovieData) : option (jsstring * list jsstring * Z) :=
  match data_title d, data_actors d, data_year d with
  | Str t, Arr l, Finite y =>
      match strings_of l with
      | Some a => Some (t, a, y)
      | None => None
      end
  | _, _, _ => None
  end.

Definition has_id (i : jsstring) (m : Movie) : bool := jsstring_eqb (id m) i.

Fixpoint remove_first (i : jsstring) (l : list Movie) : list Movie :=
  match l with
  | [] => []
  | m :: rest => if has_id i m then rest else m :: remove_first i rest
  end.

(** Modelled from the spec: [listAll()], all records in store order. *)
Definition db_findMany : Async Db (list Movie) :=
  fun s => (Normal (collection s), s).

(** Modelled from the spec: [create(record-without-id)], the persisted
    record with its assigned [id]; fails when the store rejects the
    write. *)
Definition db_create (d : MovieData) : Async Db Movie :=
  fun s =>
    match typed d with
    | Some (t, a, y) =>
        let m := {| id := oid (minted s); title := t; actors := a;
                    year := y |} in
        (Normal m, {| collection := collection s ++ [m];
                      minted := N.succ (minted s) |})
    | None => (Throw PersistenceError, s)
    end.

(** Modelled from the spec: [update(id, fields)], the record after the
    three content fields are replaced together; [NotFound] if no record
    has [id]. *)
Definition db_update (where_id : value) (d : MovieData) : Async Db Movie :=
  fun s =>
    match where_id, typed d with
    | Str i, Some (t, a, y) =>
        if existsb (has_id i) (collection s) then
          let m' := {| id := i; title := t; actors := a; year := y |} in
          (Normal m',
           {| collection :=
                map (fun m => if has_id i m then m' else m) (collection s);
              minted := minted s |})
        else (Throw NotFound, s)
    | _, _ => (Throw PersistenceError, s)
    end.

(** Modelled from the spec: [delete(id)], removal of the record keyed by
    [id]; [NotFound] if no record has [id]. *)
Definition db_delete (where_id : value) : Async Db Movie :=
  fun s =>
    match where_id with
    | Str i =>
        match find (has_id i) (collection s) with
        | Some m =>
            (Normal m, {| collection := remove_first i (collection s);
                          minted := minted s |})
        | None => (Throw NotFound, s)
        end
    | _ => (Throw PersistenceError, s)
    end.

Definition client : MovieDelegate Db := {|
  findMany := db_findMany;
  create := db_create;
  update := db_update;
  delete := db_delete
|}.

(** Identifiers are unique and all come from the counter. *)
Definition wf (s : Db) : Prop :=
  NoDup (map id (collection s)) /\
  forall m, In m (collection s) ->
            exists k, (k < minted s)%N /\ id m = oid k.

(** Every record has a title. *)
Definition titled (s : Db) : Prop :=
  Forall (fun m => title m <> []) (collection s).

(** The store after a handler has run. *)
Definition after {A} (r : completion A * Db) : Db := snd r.

(** Stores that the handlers can produce from the empty one. *)
Inductive reachable : Db -> Prop :=
| reach_empty : reachable empty
| reach_GET s : reachable s -> reachable (after (GET client s))
| reach_POST s req : reachable s -> reachable (after (POST client req s))
| reach_PUT s req : reachable s -> reachable (after (PUT client req s))
| reach_DELETE s req :
    reachable s -> reachable (after (DELETE client req s)).

End Store.

(* ================================================================== *)
(** ** page.tsx: the list the page keeps *)
(* ================================================================== *)

Module Page.

(** [newMovie]: the three text inputs of the form. *)
Record Form := {
  form_title : jsstring;
  form_actors : jsstring;
  form_year : jsstring
}.

Definition blank : Form :=
  {| form_title := []; form_actors := []; form_year := [] |}.

(** The component's state, and the notices raised with [alert]. *)
Record State := {
  movies : list Movie;
  newMovie : Form;
  editingMovie : option Movie;
  alerts : list string
}.

(** What the page reads of a response: [response.ok] and, only then, the
    awaited [response.json()]. *)
Inductive Fetched :=
| Ok (json : Movie)
| NotOk.

(** [response.ok]: a status in 200..299. *)
Definition ok (r : Response) : bool :=
  (200 <=? status r) && (status r <=? 299).

(** The page's view of a response to its POST or PUT. *)
Definition fetched (r : Response) : option Fetched :=
  if ok r then
    match body r with
    | MovieJson m => Some (Ok m)
    | _ => None
    end
  else Some NotOk.

Definition alert (msg : string) (st : State) : State :=
  {| movies := movies st; newMovie := newMovie st;
     editingMovie := editingMovie st; alerts := alerts st ++ [msg] |}.

(** [handleSubmit], from the response on, when the state is still the
    one the handler was created in. *)
Definition handleSubmit (st : State) (response : Fetched) : State :=
  match response with
  | Ok movie =>
      {| movies :=
           match editingMovie st with
           | Some _ =>
               map (fun m => if jsstring_eqb (id m) (id movie) then movie
                             else m) (movies st)
           | None => movies st ++ [movie]
           end;
         newMovie := blank;
         editingMovie := None;
         alerts := alerts st |}
  | NotOk => alert "Failed to save movie"%string st
  end.

(** [handleDelete id], from the response on, when the state is still the
    one the handler was created in. *)
Definition handleDelete (st : State) (id0 : jsstring) (response_ok : bool)
  : State :=
  if response_ok then
    {| movies :=
         filter (fun movie => negb (jsstring_eqb (id movie) id0))
           (movies st);
       newMovie := newMovie st;
       editingMovie := editingMovie st;
       alerts := alerts st |}
  else alert "Failed to delete movie"%string st.

(** [handleSubmit] and [handleDelete] are closures of one render: after
    the [await] they compute the new list from the [movies] and
    [editingMovie] they closed over ([closed]), and the setters put it in
    the state of that time ([now]); [setEditingMovie] and [setNewMovie]
    store fixed values. *)
Definition handleSubmit_at (closed now : State) (response : Fetched)
  : State :=
  match response with
  | Ok movie =>
      {| movies :=
           match editingMovie closed with
           | Some _ =>
               map (fun m => if jsstring_eqb (id m) (id movie) then movie
                             else m) (movies closed)
           | None => movies closed ++ [movie]
           end;
         newMovie := blank;
         editingMovie := None;
         alerts := alerts now |}
  | NotOk => alert "Failed to save movie"%string now
  end.

Definition handleDelete_at (closed now : State) (id0 : jsstring)
    (response_ok : bool) : State :=
  if response_ok then
    {| movies :=
         filter (fun movie => negb (jsstring_eqb (id movie) id0))
           (movies closed);
       newMovie := newMovie now;
       editingMovie := editingMovie now;
       alerts := alerts now |}
  else alert "Failed to delete movie"%string now.

(** The method and the JSON body of the request [handleSubmit] sends:
    PUT with the edited record's [id] when a record is being edited, POST
    otherwise; [actors] is split and trimmed and [year] parsed by the
    page ([parseInt] of a string, which cannot throw), and
    [JSON.stringify] writes a [NaN] or infinite year as [null]. *)
Inductive Method := mGET | mPOST | mPUT | mDELETE.

Definition submit_method (st : State) : Method :=
  match editingMovie st with
  | Some _ => mPUT
  | None => mPOST
  end.

Definition submit_fields (f : Form) : list (jsstring * value) :=
  [(lit "title", Str (form_title f));
   (lit "actors", Arr (map Str (map trim (split comma (form_actors f)))));
   (lit "year", json_number (parseDigits (form_year f)))].

Definition submit_body (st : State) : value :=
  match editingMovie st with
  | Some m => Obj ((lit "id", Str (id m)) :: submit_fields (newMovie st))
  | None => Obj (submit_fields (newMovie st))
  end.

(** The body of the request [handleDelete id] sends. *)
Definition delete_body (id0 : jsstring) : value := Obj [(lit "id", Str id0)].

(** [fetch('/api/movies', { method, body })]: the route's handler of that
    method, on the body as [req.json()] reads it back. *)
Definition fetch_api {S} (prisma : MovieDelegate S) (method : Method)
    (b : value) : Async S Response :=
  match method with
  | mGET => GET prisma
  | mPOST => POST prisma (request b)
  | mPUT => PUT prisma (request b)
  | mDELETE => DELETE prisma (request b)
  end.

(** [handleEdit movie]: the record becomes the one edited and fills the
    form. *)
Definition handleEdit (st : State) (movie : Movie) : State :=
  {| movies := movies st;
     newMovie :=
       {| form_title := title movie;
          form_actors := join (lit ", ") (actors movie);
          form_year := NumberToString (Finite (year movie)) |};
     editingMovie := Some movie;
     alerts := alerts st |}.

(** [fetchMovies], from the awaited [res.json()] on: an array replaces
    the list, any other JSON empties it, and when the fetch or the parse
    throws the error is logged and the list stays. *)
Definition fetchMovies (st : State) (data : completion Json) : State :=
  match data with
  | Normal (MoviesJson l) =>
      {| movies := l; newMovie := newMovie st;
         editingMovie := editingMovie st; alerts := alerts st |}
  | Normal _ =>
      {| movies := []; newMovie := newMovie st;
         editingMovie := editingMovie st; alerts := alerts st |}
  | Throw _ => st
  end.

End Page.

(* ================================================================== *)
(** ** Vocabulary of the statements *)
(* ================================================================== *)

(** A body that destructures: anything [JSON.parse] yields but [null]. *)
Definition coercible (v : value) : bool :=
  match v with
  | Undefined | Null => false
  | _ => true
  end.

Definition missing_fields : Response :=
  {| status := 400; body := ErrorJson "Missing required fields" |}.

Definition missing_id : Response :=
  {| status := 400; body := ErrorJson "Missing movie ID" |}.

Definition failure (msg : string) : Response :=
  {| status := 500; body := ErrorJson msg |}.

Definition created (m : Movie) : Response :=
  {| status := 201; body := MovieJson m |}.

Definition updated (m : Movie) : Response :=
  {| status := 200; body := MovieJson m |}.

Definition deleted (_ : Movie) : Response :=
  {| status := 200; body := MessageJson "Movie deleted successfully" |}.

Definition listed (l : list Movie) : Response :=
  {| status := 200; body := MoviesJson l |}.

(** The response a handler builds from the outcome of its store call:
    [success] on a normal completion, [fallback] on anything thrown. *)
Definition settle {S A} (success : A -> Response) (fallback : Response)
    (r : completion A * S) : completion Response * S :=
  match r with
  | (Normal a, s') => (Normal (success a), s')
  | (Throw _, s') => (Normal fallback, s')
  end.

(** The [data] both POST and PUT build from a body; [None] when
    [parseInt] throws on the year. *)
Definition data_of (b : value) : option MovieData :=
  match parseInt (get b "year") with
  | Some parsed =>
      Some {| data_title := get b "title";
              data_actors := actors_data (get b "actors");
              data_year := parsed |}
  | None => None
  end.

(** The required-field check of POST. *)
Definition present (b : value) : bool :=
  truthy (get b "title") && truthy (get b "actors") && truthy (get b "year").

(** The normalization of a string of actors as section 4.2 of the
    specification words it: split on commas, trim each segment, drop the
    empty segments.  Written from the specification, to be compared with
    [actors_data]. *)
Definition actors_spec (s : jsstring) : list jsstring :=
  filter (fun seg => match seg with [] => false | _ => true end)
         (map trim (split comma s)).

Definition same_content (t : jsstring) (a : list jsstring) (y : Z)
    (m : Movie) : bool :=
  jsstring_eqb (title m) t
  && (if list_eq_dec (list_eq_dec N.eq_dec) (actors m) a then true else false)
  && (year m =? y).

Definition count {A} (p : A -> bool) (l : list A) : nat :=
  List.length (filter p l).

(** A create or update request is valid, with content [(t, a, y)], when
    it passes the handler's check and the store's typing: [t], [a] and [y]
    are then the title, the normalized actors and the parsed year. *)
Definition valid_input (b : value) (t : jsstring) (a : list jsstring)
    (y : Z) : Prop :=
  present b = true
  /\ exists d, data_of b = Some d /\ Store.typed d = Some (t, a, y).

(** Request bodies [{title, actors, year}] and [{id, title, actors, year}]. *)
Definition movie_body (t a y : value) : value :=
  Obj [(lit "title", t); (lit "actors", a); (lit "year", y)].

Definition movie_update (i t a y : value) : value :=
  Obj [(lit "id", i); (lit "title", t); (lit "actors", a); (lit "year", y)].

Module Examples.

(** The scenario of section 8 of the specification. *)
Definition inception : value :=
  movie_body (Str (lit "Inception")) (Str (lit "Leo, Tom"))
    (Str (lit "2010")).

Definition inception_movie (i : jsstring) : Movie :=
  {| id := i; title := lit "Inception"; actors := [lit "Leo"; lit "Tom"];
     year := 2010 |}.

Definition abc : value :=
  movie_body (Str (lit "T")) (Str (lit "A, B ,C")) (Str (lit "2000")).

Definition abc_update : value :=
  movie_update (Str (lit "0")) (Str (lit "T")) (Str (lit "A, B ,C"))
    (Str (lit "2000")).

Definition gaps : value :=
  movie_body (Str (lit "T")) (Str (lit "A,,B")) (Str (lit "2000")).

Definition gaps_update : value :=
  movie_update (Str (lit "0")) (Str (lit "T")) (Str (lit "A,,B"))
    (Str (lit "2000")).



Definition no_actors : value :=
  movie_body (Str (lit "T")) (Arr []) (Num (lit "2000")).

Definition only_title : value := Obj [(lit "title", Str (lit "T"))].

Definition year_zero : value :=
  movie_body (Str (lit "T")) (Arr [Str (lit "A")]) (Num (lit "0")).

Definition unknown_update : value :=
  movie_update (Str (lit "7")) (Str (lit "T")) (Arr [Str (lit "A")])
    (Num (lit "2000")).

(** The store after the scenario's POST on the empty store. *)
Definition one_movie : Store.Db :=
  Store.after (POST Store.client (request inception) Store.empty).

Definition delete_first : value := Obj [(lit "id", Str (lit "0"))].

(** A year that is an object with an own [toString] property, as
    [{"toString": 1}] parses. *)
Definition year_object : value :=
  movie_body (Str (lit "T")) (Str (lit "A"))
    (Obj [(lit "toString", Num (lit "1"))]).

(** The form of the scenario, and a page that lists nothing yet. *)
Definition inception_form : Page.Form :=
  {| Page.form_title := lit "Inception";
     Page.form_actors := lit "Leo, Tom";
     Page.form_year := lit "2010" |}.

Definition fresh_page : Page.State :=
  {| Page.movies := []; Page.newMovie := inception_form;
     Page.editingMovie := None; Page.alerts := [] |}.

End Examples.

(* ================================================================== *)
(** ** The handlers against any store *)
(* ================================================================== *)

Section RouteFacts.

Context {S : Type} (prisma : MovieDelegate S).

Ltac run :=
  unfold POST, PUT, DELETE, GET, try_catch, bind, req_json, request,
    RequireObjectCoercible, throwing, ret, throw, settle,
    NextResponse_json, present, data_of; simpl.

Lemma truthy_coercible v : truthy v = true -> coercible v = true.
Proof. destruct v; simpl; congruence. Qed.

Lemma get_not_coercible b k : coercible b = false -> get b k = Undefined.
Proof. destruct b; simpl; congruence. Qed.

Lemma present_coercible b : present b = true -> coercible b = true.
Proof.
  unfold present. destruct b; simpl; trivial; discriminate.
Qed.

(** A body that is not JSON, or is [null]: every handler that reads the
    body answers 500 and leaves the store as it was. *)
Lemma POST_unreadable s :
  POST prisma {| parsed_body := None |} s
  = (Normal (failure "Failed to add movie"), s).
Proof. reflexivity. Qed.

Lemma POST_null s :
  POST prisma (request Null) s = (Normal (failure "Failed to add movie"), s).
Proof. reflexivity. Qed.

(** POST, a falsy required field: 400 without a store call. *)
Lemma POST_rejects b s :
  coercible b = true -> present b = false ->
  POST prisma (request b) s = (Normal missing_fields, s).
Proof.
  intros Hc Hp. run.
  unfold present in Hp.
  destruct b; try discriminate Hc; simpl in *;
    try reflexivity.
  destruct (truthy (lookup (lit "title") props)),
           (truthy (lookup (lit "actors") props)),
           (truthy (lookup (lit "year") props));
    simpl in *; try discriminate Hp; reflexivity.
Qed.

(** POST, the three fields truthy and a year [parseInt] accepts: one
    [create] call decides. *)
Lemma POST_delegates b d s :
  present b = true -> data_of b = Some d ->
  POST prisma (request b) s
  = settle created (failure "Failed to add movie") (create prisma d s).
Proof.
  intros Hp Hd. pose proof (present_coercible b Hp) as Hc.
  unfold present in Hp.
  apply andb_prop in Hp as [Hp Hy]. apply andb_prop in Hp as [Ht Ha].
  unfold data_of in Hd. run.
  destruct b; try discriminate Hc; simpl in *; try discriminate.
  rewrite Ht, Ha, Hy. simpl.
  destruct (parseInt (lookup (lit "year") props)) as [parsed|];
    [|discriminate Hd].
  injection Hd as <-. simpl.
  destruct (create prisma _ s) as [[m|e] s']; reflexivity.
Qed.

(** POST, the three fields truthy and a year on which [parseInt]
    throws: 500 without a store call. *)
Lemma POST_throws b s :
  present b = true -> data_of b = None ->
  POST prisma (request b) s = (Normal (failure "Failed to add movie"), s).
Proof.
  intros Hp Hd. pose proof (present_coercible b Hp) as Hc.
  unfold present in Hp.
  apply andb_prop in Hp as [Hp Hy]. apply andb_prop in Hp as [Ht Ha].
  unfold data_of in Hd. run.
  destruct b; try discriminate Hc; simpl in *; try discriminate.
  rewrite Ht, Ha, Hy. simpl.
  destruct (parseInt (lookup (lit "year") props)) as [parsed|];
    [discriminate Hd|reflexivity].
Qed.

Lemma PUT_rejects b s :
  coercible b = true ->
  truthy (get b "id") && present b = false ->
  PUT prisma (request b) s = (Normal missing_fields, s).
Proof.
  intros Hc Hp. run. unfold present in Hp.
  destruct b; try discriminate Hc; simpl in *; try reflexivity.
  destruct (truthy (lookup (lit "id") props)),
           (truthy (lookup (lit "title") props)),
           (truthy (lookup (lit "actors") props)),
           (truthy (lookup (lit "year") props));
    simpl in *; try discriminate Hp; reflexivity.
Qed.

Lemma PUT_delegates b d s :
  truthy (get b "id") = true -> present b = true -> data_of b = Some d ->
  PUT prisma (request b) s
  = settle updated (failure "Failed to update movie")
      (update prisma (get b "id") d s).
Proof.
  intros Hi Hp Hd. unfold present in Hp.
  apply andb_prop in Hp as [Hp Hy]. apply andb_prop in Hp as [Ht Ha].
  unfold data_of in Hd. run. destruct b; simpl in *; try discriminate.
  rewrite Hi, Ht, Ha, Hy. simpl.
  destruct (parseInt (lookup (lit "year") props)) as [parsed|];
    [|discriminate Hd].
  injection Hd as <-. simpl.
  destruct (update prisma _ _ s) as [[m|e] s']; reflexivity.
Qed.

Lemma PUT_throws b s :
  truthy (get b "id") = true -> present b = true -> data_of b = None ->
  PUT prisma (request b) s
  = (Normal (failure "Failed to update movie"), s).
Proof.
  intros Hi Hp Hd. unfold present in Hp.
  apply andb_prop in Hp as [Hp Hy]. apply andb_prop in Hp as [Ht Ha].
  unfold data_of in Hd. run. destruct b; simpl in *; try discriminate.
  rewrite Hi, Ht, Ha, Hy. simpl.
  destruct (parseInt (lookup (lit "year") props)) as [parsed|];
    [discriminate Hd|reflexivity].
Qed.

Lemma DELETE_rejects b s :
  coercible b = true -> truthy (get b "id") = false ->
  DELETE prisma (request b) s = (Normal missing_id, s).
Proof.
  intros Hc Hi. run.
  destruct b; try discriminate Hc; simpl in *; try reflexivity.
  rewrite Hi. reflexivity.
Qed.

Lemma DELETE_delegates b s :
  truthy (get b "id") = true ->
  DELETE prisma (request b) s
  = settle deleted (failure "Failed to delete movie")
      (delete prisma (get b "id") s).
Proof.
  intros Hi. run. destruct b; simpl in *; try discriminate.
  rewrite Hi. simpl.
  destruct (delete prisma _ s) as [[m|e] s']; reflexivity.
Qed.

Lemma GET_delegates s :
  GET prisma s
  = settle listed (failure "Failed to fetch movies") (findMany prisma s).
Proof.
  run. destruct (findMany prisma s) as [[l|e] s']; reflexivity.
Qed.

End RouteFacts.

(** Every run of a handler is one of three: the handler threw before any
    store call, on a body it could not read or on a year [parseInt]
    throws on (500, store untouched); a required field was falsy (400,
    store untouched); or one store call decided. *)
Section RouteCases.

Context {S : Type} (prisma : MovieDelegate S).

Lemma POST_cases req s :
  POST prisma req s = (Normal (failure "Failed to add movie"), s)
  \/ POST prisma req s = (Normal missing_fields, s)
  \/ exists b d, parsed_body req = Some b /\ present b = true /\
       data_of b = Some d /\
       POST prisma req s
       = settle created (failure "Failed to add movie")
           (create prisma d s).
Proof.
  destruct req as [[b|]]; [|left; reflexivity].
  destruct (coercible b) eqn:Hc.
  - destruct (present b) eqn:Hp.
    + destruct (data_of b) as [d|] eqn:Hd.
      * right; right. exists b, d. repeat split; trivial.
        now apply POST_delegates.
      * left. now apply POST_throws.
    + right; left. now apply POST_rejects.
  - left. destruct b; try discriminate Hc; reflexivity.
Qed.

Lemma PUT_cases req s :
  PUT prisma req s = (Normal (failure "Failed to update movie"), s)
  \/ PUT prisma req s = (Normal missing_fields, s)
  \/ exists b d, parsed_body req = Some b /\
       truthy (get b "id") = true /\ present b = true /\
       data_of b = Some d /\
       PUT prisma req s
       = settle updated (failure "Failed to update movie")
           (update prisma (get b "id") d s).
Proof.
  destruct req as [[b|]]; [|left; reflexivity].
  destruct (coercible b) eqn:Hc.
  - destruct (truthy (get b "id")) eqn:Hi.
    + destruct (present b) eqn:Hp.
      * destruct (data_of b) as [d|] eqn:Hd.
        -- right; right. exists b, d. repeat split; trivial.
           now apply PUT_delegates.
        -- left. now apply PUT_throws.
      * right; left. apply PUT_rejects; trivial. now rewrite Hi, Hp.
    + right; left. apply PUT_rejects; trivial. now rewrite Hi.
  - left. destruct b; try discriminate Hc; reflexivity.
Qed.

Lemma DELETE_cases req s :
  DELETE prisma req s = (Normal (failure "Failed to delete movie"), s)
  \/ DELETE prisma req s = (Normal missing_id, s)
  \/ exists b, parsed_body req = Some b /\ truthy (get b "id") = true /\
       DELETE prisma req s
       = settle deleted (failure "Failed to delete movie")
           (delete prisma (get b "id") s).
Proof.
  destruct req as [[b|]]; [|left; reflexivity].
  destruct (coercible b) eqn:Hc.
  - destruct (truthy (get b "id")) eqn:Hi.
    + right; right. exists b. repeat split; trivial.
      now apply DELETE_delegates.
    + right; left. now apply DELETE_rejects.
  - left. destruct b; try discriminate Hc; reflexivity.
Qed.

End RouteCases.

(* ================================================================== *)
(** ** The record store: identifiers and well-formedness *)
(* ================================================================== *)

Module StoreFacts.
Import Store.

Lemma jsstring_eqb_eq a b : jsstring_eqb a b = true <-> a = b.
Proof.
  unfold jsstring_eqb. destruct (list_eq_dec N.eq_dec a b); split;
    congruence.
Qed.

Lemma jsstring_eqb_refl a : jsstring_eqb a a = true.
Proof. now apply jsstring_eqb_eq. Qed.

Lemma jsstring_eqb_neq a b : jsstring_eqb a b = false <-> a <> b.
Proof.
  unfold jsstring_eqb. destruct (list_eq_dec N.eq_dec a b); split;
    congruence.
Qed.

Lemma lit_inj a b : lit a = lit b -> a = b.
Proof.
  unfold lit. revert b.
  induction a as [|c a IH]; intros [|c' b] H; simpl in H;
    try discriminate; trivial.
  injection H as Hc Hr. f_equal.
  - rewrite <- (ascii_N_embedding c), <- (ascii_N_embedding c').
    now rewrite Hc.
  - now apply IH.
Qed.

Lemma oid_inj a b : oid a = oid b -> a = b.
Proof.
  unfold oid. intros H. apply lit_inj in H.
  apply DecimalN.Unsigned.to_uint_inj.
  assert (E : NilEmpty.uint_of_string (NilEmpty.string_of_uint (N.to_uint a))
              = NilEmpty.uint_of_string
                  (NilEmpty.string_of_uint (N.to_uint b)))
    by now rewrite H.
  rewrite !NilEmpty.usu in E. congruence.
Qed.

Lemma oid_nonempty n : oid n <> [].
Proof.
  unfold oid. destruct n as [|p]; [discriminate|].
  change (N.to_uint (N.pos p)) with (Pos.to_uint p).
  pose proof (DecimalPos.Unsigned.to_uint_nonnil p) as Hn.
  destruct (Pos.to_uint p); [congruence| |..]; discriminate.
Qed.

Lemma has_id_true i m : has_id i m = true <-> id m = i.
Proof. apply jsstring_eqb_eq. Qed.

Lemma has_id_false i m : has_id i m = false <-> id m <> i.
Proof. apply jsstring_eqb_neq. Qed.

Lemma wf_empty : wf empty.
Proof. split; [constructor | intros m []]. Qed.

Lemma fresh_id s :
  wf s -> ~ In (oid (minted s)) (map id (collection s)).
Proof.
  intros [_ Hk] Hin. apply in_map_iff in Hin as (m & Hm & Hin).
  destruct (Hk m Hin) as (k & Hlt & Hid).
  rewrite Hid in Hm. apply oid_inj in Hm. lia.
Qed.

Lemma wf_create d s r s' : wf s -> db_create d s = (r, s') -> wf s'.
Proof.
  intros Hwf H. unfold db_create in H.
  destruct (typed d) as [[[t a] y]|]; injection H as <- <-; trivial.
  pose proof (fresh_id s Hwf) as Hfresh. destruct Hwf as [Hnd Hk].
  split; simpl.
  - rewrite map_app. simpl.
    apply NoDup_app; trivial.
    + constructor; [intros []|constructor].
    + intros x Hx [<-|[]]. contradiction.
  - intros m Hin. apply in_app_or in Hin as [Hin|[<-|[]]].
    + destruct (Hk m Hin) as (k & Hlt & Hid). exists k. split; [lia|trivial].
    + exists (minted s). split; [lia|reflexivity].
Qed.

Lemma map_id_replace i m' l :
  id m' = i ->
  map id (map (fun m => if has_id i m then m' else m) l) = map id l.
Proof.
  intros Hi. rewrite map_map. apply map_ext_in. intros m _.
  destruct (has_id i m) eqn:E; trivial.
  apply has_id_true in E. congruence.
Qed.

Lemma wf_update w d s r s' : wf s -> db_update w d s = (r, s') -> wf s'.
Proof.
  intros Hwf H. unfold db_update in H.
  destruct w; try (injection H as <- <-; trivial).
  destruct (typed d) as [[[t a] y]|]; [|injection H as <- <-; trivial].
  destruct (existsb (has_id s0) (collection s));
    injection H as <- <-; trivial.
  destruct Hwf as [Hnd Hk]. split; simpl.
  - now rewrite map_id_replace.
  - intros m Hin. apply in_map_iff in Hin as (m0 & Hm & Hin).
    destruct (Hk m0 Hin) as (k & Hlt & Hid). exists k. split; trivial.
    destruct (has_id s0 m0) eqn:E; subst m; trivial.
    apply has_id_true in E. simpl. congruence.
Qed.

Lemma remove_first_incl i l m : In m (remove_first i l) -> In m l.
Proof.
  induction l as [|x l IH]; simpl; trivial.
  destruct (has_id i x); simpl; intuition.
Qed.

Lemma remove_first_NoDup i l :
  NoDup (map id l) -> NoDup (map id (remove_first i l)).
Proof.
  induction l as [|x l IH]; simpl; trivial.
  intros H. inversion H as [|? ? Hx Hl]; subst.
  destruct (has_id i x); simpl; trivial.
  constructor; [|now apply IH].
  intros Hin. apply Hx. apply in_map_iff in Hin as (m & Hm & Hin).
  apply in_map_iff. exists m. split; trivial.
  now apply remove_first_incl in Hin.
Qed.

(** With unique identifiers, removing the first record of an identifier
    removes the identifier. *)
Lemma remove_first_gone i l m :
  NoDup (map id l) -> In m (remove_first i l) -> id m <> i.
Proof.
  induction l as [|x l IH]; simpl; [intros _ []|].
  intros H Hin. inversion H as [|? ? Hx Hl]; subst.
  destruct (has_id i x) eqn:E.
  - apply has_id_true in E. intros Hm. apply Hx.
    apply in_map_iff. exists m. split; [congruence|trivial].
  - destruct Hin as [<-|Hin].
    + now apply has_id_false.
    + now apply IH.
Qed.

Lemma no_match_existsb i l :
  (forall m, In m l -> Str (id m) <> Str i) -> existsb (has_id i) l = false.
Proof.
  intros H. destruct (existsb (has_id i) l) eqn:E; trivial.
  apply existsb_exists in E as (m & Hin & Hid).
  apply has_id_true in Hid. exfalso. apply (H m Hin). now rewrite Hid.
Qed.

Lemma typed_inv d t a y :
  typed d = Some (t, a, y) ->
  data_title d = Str t /\ data_year d = Finite y /\
  exists l, data_actors d = Arr l /\ strings_of l = Some a.
Proof.
  unfold typed. destruct (data_title d); try discriminate.
  destruct (data_actors d) as [| | | | |l|]; try discriminate.
  destruct (data_year d); try discriminate.
  destruct (strings_of l) eqn:E; try discriminate.
  intros [= <- <- <-]. repeat split. now exists l.
Qed.

Lemma data_of_inv b d :
  data_of b = Some d ->
  data_title d = get b "title"
  /\ data_actors d = actors_data (get b "actors")
  /\ parseInt (get b "year") = Some (data_year d).
Proof.
  unfold data_of. destruct (parseInt (get b "year")) as [parsed|];
    [|discriminate]. intros [= <-]. now repeat split.
Qed.

Lemma valid_title_nonempty b t a y : valid_input b t a y -> t <> [].
Proof.
  intros (Hp & d & Hd & Ht). apply typed_inv in Ht as (Ht & _).
  apply data_of_inv in Hd as (Hd & _). rewrite Hd in Ht.
  unfold present in Hp. apply andb_prop in Hp as [Hp _].
  apply andb_prop in Hp as [Hp _]. rewrite Ht in Hp.
  destruct t; [discriminate|congruence].
Qed.

Lemma strings_of_map_Str l : strings_of (map Str l) = Some l.
Proof.
  induction l as [|x l IH]; simpl; trivial. now rewrite IH.
Qed.

Lemma db_create_typed d t a y s :
  typed d = Some (t, a, y) ->
  db_create d s
  = (Normal {| id := oid (minted s); title := t; actors := a; year := y |},
     {| collection :=
          collection s
          ++ [{| id := oid (minted s); title := t; actors := a; year := y |}];
        minted := N.succ (minted s) |}).
Proof. intros H. unfold db_create. now rewrite H. Qed.

Lemma db_update_typed i d t a y s :
  typed d = Some (t, a, y) ->
  existsb (has_id i) (collection s) = true ->
  db_update (Str i) d s
  = (Normal {| id := i; title := t; actors := a; year := y |},
     {| collection :=
          map (fun m => if has_id i m
                        then {| id := i; title := t; actors := a; year := y |}
                        else m) (collection s);
        minted := minted s |}).
Proof. intros H He. unfold db_update. now rewrite H, He. Qed.

Lemma count_app {A} (p : A -> bool) l1 l2 :
  count p (l1 ++ l2) = (count p l1 + count p l2)%nat.
Proof. unfold count. now rewrite filter_app, length_app. Qed.

Lemma count_none {A} (p : A -> bool) l :
  (forall x, In x l -> p x = false) -> count p l = 0%nat.
Proof.
  unfold count. induction l as [|x l IH]; simpl; trivial.
  intros H. rewrite (H x) by now left. apply IH. intros y Hy.
  apply H. now right.
Qed.

Lemma wf_delete w s r s' : wf s -> db_delete w s = (r, s') -> wf s'.
Proof.
  intros Hwf H. unfold db_delete in H.
  destruct w; try (injection H as <- <-; trivial).
  destruct (find (has_id s0) (collection s)) as [found|];
    injection H as <- <-; trivial.
  destruct Hwf as [Hnd Hk]. split; simpl.
  - now apply remove_first_NoDup.
  - intros m Hin. apply Hk. now apply remove_first_incl in Hin.
Qed.

Lemma after_settle {A} f g (r : completion A * Db) :
  after (settle f g r) = snd r.
Proof. destruct r as [[a|e] s']; reflexivity. Qed.

Lemma reachable_wf s : reachable s -> wf s.
Proof.
  induction 1 as [|s Hr IH|s req Hr IH|s req Hr IH|s req Hr IH].
  - apply wf_empty.
  - rewrite GET_delegates, after_settle. exact IH.
  - destruct (POST_cases client req s)
      as [E|[E|(b & d & _ & _ & _ & E)]]; rewrite E; trivial.
    rewrite after_settle.
    destruct (create client d s) as [r s'] eqn:Ec.
    exact (wf_create _ _ _ _ IH Ec).
  - destruct (PUT_cases client req s)
      as [E|[E|(b & d & _ & _ & _ & _ & E)]]; rewrite E; trivial.
    rewrite after_settle.
    destruct (update client (get b "id") d s) as [r s'] eqn:Ec.
    exact (wf_update _ _ _ _ _ IH Ec).
  - destruct (DELETE_cases client req s) as [E|[E|(b & _ & _ & E)]];
      rewrite E; trivial.
    rewrite after_settle.
    destruct (delete client (get b "id") s) as [r s'] eqn:Ec.
    exact (wf_delete _ _ _ _ IH Ec).
Qed.

End StoreFacts.

(* ================================================================== *)
(** ** Properties of the specification *)
(* ================================================================== *)

Import Store Examples.

(** *** The string functions on the inputs of the specification *)

Example split_trim_A_B_C :
  map trim (split comma (lit "A, B ,C")) = [lit "A"; lit "B"; lit "C"].
Proof. reflexivity. Qed.

Example split_keeps_empty_segments :
  split comma (lit ",") = [[]; []]
  /\ split comma [] = [[]]
  /\ map trim (split comma (lit " , x ,")) = [[]; lit "x"; []].
Proof. repeat split; reflexivity. Qed.

Example trim_strips_both_ends :
  trim (32 :: 9 :: lit "Leo  Di" ++ [160; 10])%N = lit "Leo  Di".
Proof. reflexivity. Qed.

Example parseInt_examples :
  parseInt (Str (lit "2010")) = Some (Finite 2010)
  /\ parseInt (Num (lit "2010")) = Some (Finite 2010)
  /\ parseInt (Num (lit "2010.5")) = Some (Finite 2010)
  /\ parseInt (Str (lit "  -12px")) = Some (Finite (-12))
  /\ parseInt (Str (lit "abc")) = Some NaN
  /\ parseInt (Bool true) = Some NaN
  /\ parseInt (Arr [Num (lit "1999")]) = Some (Finite 1999)
  /\ parseInt (Obj []) = Some NaN.
Proof. repeat split; reflexivity. Qed.

Example parseInt_throws_on_own_toString :
  parseInt (Obj [(lit "toString", Num (lit "1"))]) = None
  /\ parseInt (Arr [Num (lit "5"); Obj [(lit "toString", Null)]]) = None
  /\ parseInt (Arr [Num (lit "5"); Obj [(lit "valueOf", Null)]])
     = Some (Finite 5).
Proof. repeat split; reflexivity. Qed.

Example parseInt_rounds_to_a_double :
  parseInt (Str (lit "9007199254740993")) = Some (Finite 9007199254740992)
  /\ parseInt (Str (lit "9007199254740995")) = Some (Finite 9007199254740996)
  /\ toDouble (10 ^ 400) = Infinity false
  /\ toDouble (- 10 ^ 400) = Infinity true
  /\ toDouble (2 ^ 1024 - 2 ^ 970) = Infinity false
  /\ toDouble (2 ^ 1024 - 2 ^ 970 - 1) = Finite ((2 ^ 53 - 1) * 2 ^ 971).
Proof. repeat split; vm_compute; reflexivity. Qed.

Example scenario_POST_inception :
  POST client (request inception) empty
  = (Normal {| status := 201; body := MovieJson (inception_movie (lit "0")) |},
     {| collection := [inception_movie (lit "0")]; minted := 1 |}).
Proof. reflexivity. Qed.

Example scenario_PUT_without_id :
  PUT client (request inception) one_movie
  = (Normal {| status := 400; body := ErrorJson "Missing required fields" |},
     one_movie).
Proof. reflexivity. Qed.

Example scenario_DELETE_twice :
  DELETE client (request delete_first) one_movie
  = (Normal {| status := 200;
               body := MessageJson "Movie deleted successfully" |},
     {| collection := []; minted := 1 |})
  /\ DELETE client (request delete_first) {| collection := []; minted := 1 |}
     = (Normal {| status := 500; body := ErrorJson "Failed to delete movie" |},
        {| collection := []; minted := 1 |}).
Proof. split; reflexivity. Qed.

Example scenario_POST_year_object :
  POST client (request year_object) empty
  = (Normal {| status := 500; body := ErrorJson "Failed to add movie" |},
     empty).
Proof. reflexivity. Qed.

(** *** Normalization of [actors] *)

Lemma split_not_nil sep s : split sep s <> [].
Proof.
  destruct s as [|c s]; simpl; [discriminate|].
  destruct (c =? sep)%N; [discriminate|].
  destruct (split sep s); discriminate.
Qed.

Lemma filter_all {A} (p : A -> bool) l :
  Forall (fun x => p x = true) l -> filter p l = l.
Proof.
  induction 1 as [|x l Hx _ IH]; simpl; trivial.
  now rewrite Hx, IH.
Qed.

(** The data of a body whose year [parseInt] accepts. *)
Lemma data_of_parsed b parsed :
  parseInt (get b "year") = Some parsed ->
  data_of b = Some {| data_title := get b "title";
                      data_actors := actors_data (get b "actors");
                      data_year := parsed |}.
Proof. intros H. unfold data_of. now rewrite H. Qed.

Lemma data_of_thrown b : parseInt (get b "year") = None -> data_of b = None.
Proof. intros H. unfold data_of. now rewrite H. Qed.

(** C1, as the specification states it, fails: a string of actors with an
    empty segment is stored with the empty segment.  POST of
    [{title: "T", actors: "A,,B", year: "2000"}] on the empty store
    persists the actors "A", the empty string and "B", and so does the
    PUT of the same fields on the stored record, where splitting, trimming
    and dropping the empty segments would give ["A", "B"]. *)
Lemma C1_empty_segment_is_persisted :
  POST client (request gaps) empty
  = (Normal (created {| id := lit "0"; title := lit "T";
                        actors := [lit "A"; []; lit "B"]; year := 2000 |}),
     {| collection := [{| id := lit "0"; title := lit "T";
                          actors := [lit "A"; []; lit "B"];
                          year := 2000 |}];
        minted := 1 |})
  /\ collection (after (PUT client (request gaps_update) one_movie))
     = [{| id := lit "0"; title := lit "T";
           actors := [lit "A"; []; lit "B"]; year := 2000 |}]
  /\ actors_spec (lit "A,,B") = [lit "A"; lit "B"].
Proof. repeat split; vm_compute; reflexivity. Qed.

(** C1, amended: for every create or update request that passes the
    required-field check, whose [actors] is a single string and whose
    year [parseInt] accepts (its conversion to text does not throw), the
    [actors] handed to the store's write, by POST and by PUT alike, is the
    string split on commas with every segment trimmed, empty segments
    kept, and that sequence is what the typed store then holds in the
    created or updated record; it is the specification's normalization
    whenever no trimmed segment is empty. *)
Theorem C1_actors_string_split_and_trimmed :
  forall (S : Type) (prisma : MovieDelegate S) (b : value) (a : jsstring)
         (parsed : number) (s : S),
    get b "actors" = Str a ->
    present b = true ->
    parseInt (get b "year") = Some parsed ->
    POST prisma (request b) s
    = settle created (failure "Failed to add movie")
        (create prisma
           {| data_title := get b "title";
              data_actors := Arr (map Str (map trim (split comma a)));
              data_year := parsed |} s)
    /\ (truthy (get b "id") = true ->
        PUT prisma (request b) s
        = settle updated (failure "Failed to update movie")
            (update prisma (get b "id")
               {| data_title := get b "title";
                  data_actors := Arr (map Str (map trim (split comma a)));
                  data_year := parsed |} s))
    /\ (forall (db : Db) (t : jsstring) (y : Z),
          get b "title" = Str t -> parsed = Finite y ->
          POST client (request b) db
          = (Normal (created {| id := oid (minted db); title := t;
                                actors := map trim (split comma a);
                                year := y |}),
             {| collection :=
                  collection db
                  ++ [{| id := oid (minted db); title := t;
                         actors := map trim (split comma a); year := y |}];
                minted := N.succ (minted db) |}))
    /\ (forall (db : Db) (i t : jsstring) (y : Z),
          get b "id" = Str i -> i <> [] ->
          existsb (has_id i) (collection db) = true ->
          get b "title" = Str t -> parsed = Finite y ->
          PUT client (request b) db
          = (Normal (updated {| id := i; title := t;
                                actors := map trim (split comma a);
                                year := y |}),
             {| collection :=
                  map (fun m => if has_id i m
                                then {| id := i; title := t;
                                        actors := map trim (split comma a);
                                        year := y |}
                                else m) (collection db);
                minted := minted db |}))
    /\ (Forall (fun seg => seg <> []) (map trim (split comma a)) ->
        map trim (split comma a) = actors_spec a).
Proof.
  intros S prisma b a parsed s Ha Hp Hy.
  pose proof (data_of_parsed b parsed Hy) as Hd. rewrite Ha in Hd.
  simpl actors_data in Hd.
  assert (Hty : forall t y, get b "title" = Str t -> parsed = Finite y ->
                  typed {| data_title := get b "title";
                           data_actors :=
                             Arr (map Str (map trim (split comma a)));
                           data_year := parsed |}
                  = Some (t, map trim (split comma a), y)).
  { intros t y Ht ->. unfold typed. simpl.
    rewrite Ht. now rewrite StoreFacts.strings_of_map_Str. }
  repeat split.
  - now apply POST_delegates.
  - intros Hi. now apply PUT_delegates.
  - intros db t y Ht Hf. rewrite (POST_delegates _ _ _ _ Hp Hd).
    change (create client) with db_create.
    now rewrite (StoreFacts.db_create_typed _ _ _ _ _ (Hty t y Ht Hf)).
  - intros db i t y Hi Hne He Ht Hf.
    assert (Hti : truthy (get b "id") = true).
    { rewrite Hi. destruct i; [congruence|reflexivity]. }
    rewrite (PUT_delegates client b _ db Hti Hp Hd).
    rewrite Hi. change (update client) with db_update.
    now rewrite (StoreFacts.db_update_typed _ _ _ _ _ _ (Hty t y Ht Hf) He).
  - intros Hne. unfold actors_spec. symmetry. apply filter_all.
    eapply Forall_impl; [|exact Hne].
    intros [|c seg] H; [congruence|reflexivity].
Qed.

(** The specification's example: "A, B ,C" is persisted as
    ["A", "B", "C"], on create and on update. *)
Lemma C1_witness_A_B_C :
  (POST client (request abc) empty
   = settle created (failure "Failed to add movie")
       (create client
          {| data_title := Str (lit "T");
             data_actors := Arr [Str (lit "A"); Str (lit "B"); Str (lit "C")];
             data_year := Finite 2000 |} empty))
  /\ map actors (collection (after (POST client (request abc) empty)))
     = [[lit "A"; lit "B"; lit "C"]]
  /\ map actors
       (collection (after (PUT client (request abc_update) one_movie)))
     = [[lit "A"; lit "B"; lit "C"]]
  /\ actors_spec (lit "A, B ,C") = [lit "A"; lit "B"; lit "C"].
Proof.
  destruct (C1_actors_string_split_and_trimmed Db client abc
              (lit "A, B ,C") (Finite 2000) empty eq_refl eq_refl eq_refl)
    as (Hpost & _ & _ & _ & Hspec).
  destruct (C1_actors_string_split_and_trimmed Db client abc_update
              (lit "A, B ,C") (Finite 2000) one_movie eq_refl eq_refl
              eq_refl)
    as (_ & Hput & _).
  split; [exact Hpost|]. split; [rewrite Hpost; reflexivity|].
  split; [rewrite (Hput eq_refl); reflexivity|].
  rewrite <- Hspec; [reflexivity|].
  repeat constructor; discriminate.
Defined.

(** *** The required-field check *)

Lemma undefined_not_present b :
  get b "title" = Undefined \/ get b "actors" = Undefined
  \/ get b "year" = Undefined ->
  present b = false.
Proof.
  unfold present. intros [H|[H|H]]; rewrite H; simpl;
    rewrite ?andb_false_r; reflexivity.
Qed.

(** C2, as the specification states it, fails: a request whose body is
    the JSON [null], or is not JSON at all, has none of the required
    fields, yet POST and PUT answer it 500, not 400: destructuring [null]
    and [req.json()] throw inside the [try], and the [catch] answers.
    The store is left as it was. *)
Lemma C2_unreadable_body_is_not_400 :
  get Null "title" = Undefined
  /\ POST client (request Null) one_movie
     = (Normal {| status := 500; body := ErrorJson "Failed to add movie" |},
        one_movie)
  /\ PUT client (request Null) one_movie
     = (Normal {| status := 500; body := ErrorJson "Failed to update movie" |},
        one_movie)
  /\ POST client {| parsed_body := None |} one_movie
     = (Normal {| status := 500; body := ErrorJson "Failed to add movie" |},
        one_movie)
  /\ PUT client {| parsed_body := None |} one_movie
     = (Normal {| status := 500; body := ErrorJson "Failed to update movie" |},
        one_movie).
Proof. repeat split. Qed.

(** C2, amended: a create or update request whose body is a JSON value
    other than [null] and lacks a required field ([title], [actors],
    [year], and for update [id]) is answered 400, and the store is the one
    the handler started from, whatever the store implementation: no store
    operation takes part in the outcome.  A request whose body is [null]
    or is not JSON is answered 500, with the store likewise untouched. *)
Theorem C2_missing_field_is_400_unreadable_body_500 :
  forall (S : Type) (prisma : MovieDelegate S) (req : Request) (s : S),
    (forall b,
       parsed_body req = Some b -> coercible b = true ->
       (get b "title" = Undefined \/ get b "actors" = Undefined
        \/ get b "year" = Undefined ->
        POST prisma req s
        = (Normal {| status := 400;
                     body := ErrorJson "Missing required fields" |}, s))
       /\ (get b "id" = Undefined \/ get b "title" = Undefined
           \/ get b "actors" = Undefined \/ get b "year" = Undefined ->
           PUT prisma req s
           = (Normal {| status := 400;
                        body := ErrorJson "Missing required fields" |}, s)))
    /\ (parsed_body req = None \/ parsed_body req = Some Null ->
        POST prisma req s
        = (Normal {| status := 500; body := ErrorJson "Failed to add movie" |},
           s)
        /\ PUT prisma req s
           = (Normal {| status := 500;
                        body := ErrorJson "Failed to update movie" |}, s)).
Proof.
  intros S prisma [p] s. split.
  - intros b Hb Hc. simpl in Hb. subst p.
    change {| parsed_body := Some b |} with (request b). split.
    + intros H. apply POST_rejects; trivial.
      now apply undefined_not_present.
    + intros [H|H]; apply PUT_rejects; trivial.
      * now rewrite H.
      * rewrite (undefined_not_present b H). apply andb_false_r.
  - intros [H|H]; simpl in H; subst p; split; reflexivity.
Qed.

Lemma C2_witness_only_title :
  POST client (request only_title) one_movie
  = (Normal {| status := 400; body := ErrorJson "Missing required fields" |},
     one_movie)
  /\ PUT client (request only_title) one_movie
     = (Normal {| status := 400; body := ErrorJson "Missing required fields" |},
        one_movie).
Proof.
  destruct (C2_missing_field_is_400_unreadable_body_500 Db client
              (request only_title) one_movie) as [H _].
  destruct (H only_title eq_refl eq_refl) as [Hpost Hput].
  split; [apply Hpost; right | apply Hput]; left; reflexivity.
Defined.

(** *** The year *)





(** *** What a persisted record holds *)

Import StoreFacts.

Lemma titled_create b d s r s' :
  present b = true -> data_of b = Some d -> titled s ->
  db_create d s = (r, s') -> titled s'.
Proof.
  intros Hp Hd Ht H. unfold db_create in H.
  destruct (typed d) as [[[t a] y]|] eqn:E;
    injection H as <- <-; trivial.
  unfold titled; simpl. apply Forall_app. split; trivial.
  constructor; [|constructor]. simpl.
  apply (valid_title_nonempty b t a y). split; trivial. now exists d.
Qed.

Lemma titled_update b d w s r s' :
  present b = true -> data_of b = Some d -> titled s ->
  db_update w d s = (r, s') -> titled s'.
Proof.
  intros Hp Hd Ht H. unfold db_update in H.
  destruct w; try (injection H as <- <-; trivial).
  destruct (typed d) as [[[t a] y]|] eqn:E;
    [|injection H as <- <-; trivial].
  destruct (existsb (has_id s0) (collection s));
    injection H as <- <-; trivial.
  unfold titled in *; simpl. apply Forall_map.
  eapply Forall_impl; [|exact Ht]. intros m Hm.
  destruct (has_id s0 m); trivial. simpl.
  apply (valid_title_nonempty b t a y). split; trivial. now exists d.
Qed.

Lemma titled_delete w s r s' :
  titled s -> db_delete w s = (r, s') -> titled s'.
Proof.
  intros Ht H. unfold db_delete in H.
  destruct w; try (injection H as <- <-; trivial).
  destruct (find (has_id s0) (collection s)) as [found|];
    injection H as <- <-; trivial.
  unfold titled in *; simpl. rewrite Forall_forall in *.
  intros m Hin. apply Ht. now apply remove_first_incl in Hin.
Qed.

Lemma reachable_titled s : reachable s -> titled s.
Proof.
  induction 1 as [|s Hr IH|s req Hr IH|s req Hr IH|s req Hr IH].
  - constructor.
  - rewrite GET_delegates, after_settle. exact IH.
  - destruct (POST_cases client req s)
      as [E|[E|(b & d & _ & Hp & Hd & E)]]; rewrite E; trivial.
    rewrite after_settle.
    destruct (create client d s) as [r s'] eqn:Ec.
    exact (titled_create _ _ _ _ _ Hp Hd IH Ec).
  - destruct (PUT_cases client req s)
      as [E|[E|(b & d & _ & _ & Hp & Hd & E)]]; rewrite E; trivial.
    rewrite after_settle.
    destruct (update client (get b "id") d s) as [r s'] eqn:Ec.
    exact (titled_update _ _ _ _ _ _ Hp Hd IH Ec).
  - destruct (DELETE_cases client req s) as [E|[E|(b & _ & _ & E)]];
      rewrite E; trivial.
    rewrite after_settle.
    destruct (delete client (get b "id") s) as [r s'] eqn:Ec.
    exact (titled_delete _ _ _ _ IH Ec).
Qed.

Lemma present_fields b :
  present b = true ->
  truthy (get b "title") = true /\ truthy (get b "actors") = true
  /\ truthy (get b "year") = true.
Proof.
  unfold present. intros H. apply andb_prop in H as [H Hy].
  apply andb_prop in H as [Ht Ha]. now repeat split.
Qed.

(** C4, as the specification states it, fails: a record with no actors
    is persisted.  POST of [{title: "T", actors: [], year: 2000}] on the
    empty store is answered 201 and the store then holds a record whose
    [actors] is the empty sequence. *)
Lemma C4_record_without_actors_is_persisted :
  POST client (request no_actors) empty
  = (Normal (created {| id := lit "0"; title := lit "T"; actors := [];
                        year := 2000 |}),
     {| collection := [{| id := lit "0"; title := lit "T"; actors := [];
                          year := 2000 |}];
        minted := 1 |}).
Proof. vm_compute; reflexivity. Qed.

(** C4, amended: a POST or PUT changes the store only when [title],
    [actors] and [year] (for PUT also [id]) are all present and truthy in
    the request body; in every store the handlers can produce, each record
    has a non-empty title; its sequence of actors may be empty. *)
Theorem C4_records_need_present_fields :
  forall s : Db,
    reachable s ->
    Forall (fun m => title m <> []) (collection s)
    /\ (forall req,
          after (POST client req s) <> s ->
          exists b, parsed_body req = Some b
                    /\ truthy (get b "title") = true
                    /\ truthy (get b "actors") = true
                    /\ truthy (get b "year") = true)
    /\ (forall req,
          after (PUT client req s) <> s ->
          exists b, parsed_body req = Some b
                    /\ truthy (get b "id") = true
                    /\ truthy (get b "title") = true
                    /\ truthy (get b "actors") = true
                    /\ truthy (get b "year") = true).
Proof.
  intros s Hr. split; [exact (reachable_titled s Hr)|]. split.
  - intros req Hch.
    destruct (POST_cases client req s)
      as [E|[E|(b & d & Hb & Hp & _ & _)]];
      try (rewrite E in Hch; now elim Hch).
    exists b. split; trivial. now apply present_fields.
  - intros req Hch.
    destruct (PUT_cases client req s)
      as [E|[E|(b & d & Hb & Hi & Hp & _ & _)]];
      try (rewrite E in Hch; now elim Hch).
    exists b. split; trivial. split; trivial. now apply present_fields.
Qed.

Lemma C4_witness_after_one_create :
  Forall (fun m => title m <> []) (collection one_movie)
  /\ exists b, parsed_body (request abc) = Some b
               /\ truthy (get b "title") = true
               /\ truthy (get b "actors") = true
               /\ truthy (get b "year") = true.
Proof.
  destruct (C4_records_need_present_fields one_movie
              (reach_POST empty (request inception) reach_empty))
    as (Ht & Hpost & _).
  split; [exact Ht|]. apply Hpost. vm_compute. discriminate.
Defined.

(** *** Update of an unknown identifier *)

Lemma db_update_unknown w d s :
  (forall m, In m (collection s) -> Str (id m) <> w) ->
  exists e, db_update w d s = (Throw e, s).
Proof.
  intros H. unfold db_update.
  destruct w; try (now exists PersistenceError).
  destruct (typed d) as [[[t a] y]|]; [|now exists PersistenceError].
  rewrite (no_match_existsb _ _ H). now exists NotFound.
Qed.

(** C5: an update whose [id] matches no stored record never succeeds
    silently.  The answer is not the 200 of a success and the store is
    unchanged; when the required fields are there, the store's call fails
    ([NotFound] when the data is well typed), the handler catches it and
    answers 500 "Failed to update movie", the very answer it gives to any
    other failure of the store call, whatever the store. *)
Theorem C5_update_of_unknown_id_is_500 :
  forall (b : value) (s : Db),
    (forall m, In m (collection s) -> Str (id m) <> get b "id") ->
    (exists r, PUT client (request b) s = (Normal r, s)
               /\ status r <> 200
               /\ (truthy (get b "id") = true -> present b = true ->
                   r = failure "Failed to update movie"))
    /\ (forall d t a y,
          data_of b = Some d -> typed d = Some (t, a, y) ->
          is_string (get b "id") = true ->
          update client (get b "id") d s = (Throw NotFound, s))
    /\ (forall (S : Type) (store : MovieDelegate S) (s0 s1 : S) (e : exn)
               (d : MovieData),
          truthy (get b "id") = true -> present b = true ->
          data_of b = Some d ->
          update store (get b "id") d s0 = (Throw e, s1) ->
          PUT store (request b) s0
          = (Normal (failure "Failed to update movie"), s1)).
Proof.
  intros b s Hno. repeat split.
  - destruct (PUT_cases client (request b) s)
      as [E|[E|(b' & d & Hb & Hi & Hp & Hd & E)]].
    + eexists. split; [exact E|]. split; [discriminate|reflexivity].
    + eexists. split; [exact E|]. split; [discriminate|].
      intros Hi Hp. exfalso.
      destruct (data_of b) as [d|] eqn:Hd.
      * rewrite (PUT_delegates client b d s Hi Hp Hd) in E.
        destruct (db_update_unknown (get b "id") d s Hno) as [e He].
        simpl in E. rewrite He in E. discriminate E.
      * rewrite (PUT_throws client b s Hi Hp Hd) in E. discriminate E.
    + injection Hb as <-.
      destruct (db_update_unknown (get b "id") d s Hno) as [e He].
      simpl in E. rewrite He in E. simpl in E.
      eexists. split; [exact E|]. split; [discriminate|reflexivity].
  - intros d t a y Hd Ht Hs. simpl. unfold db_update.
    destruct (get b "id") eqn:Ei; try discriminate Hs.
    rewrite Ht. now rewrite (no_match_existsb _ _ Hno).
  - intros S store s0 s1 e d Hi Hp Hd He.
    rewrite (PUT_delegates store b d s0 Hi Hp Hd). now rewrite He.
Qed.

Lemma C5_witness_unknown_id :
  PUT client (request unknown_update) one_movie
  = (Normal (failure "Failed to update movie"), one_movie)
  /\ (exists d, data_of unknown_update = Some d
                /\ update client (Str (lit "7")) d one_movie
                   = (Throw NotFound, one_movie)).
Proof.
  assert (Hno : forall m, In m (collection one_movie) ->
                          Str (id m) <> get unknown_update "id").
  { intros m [<-|[]]. vm_compute. discriminate. }
  destruct (C5_update_of_unknown_id_is_500 unknown_update one_movie Hno)
    as ((r & Hput & _ & Hr) & Hnf & _).
  split.
  - rewrite Hput, (Hr eq_refl eq_refl). reflexivity.
  - eexists. split; [reflexivity|].
    exact (Hnf _ _ _ _ eq_refl eq_refl eq_refl).
Defined.

(** *** Create, then list *)

(** C6, as the specification states it, fails when the store already
    holds a record of the same content: after the scenario's POST
    [{title: "Inception", actors: "Leo, Tom", year: "2010"}] is made twice
    from the empty store, the list holds two records whose content fields
    match the input. *)
Lemma C6_same_input_created_twice :
  GET client (after (POST client (request inception) one_movie))
  = (Normal (listed [inception_movie (lit "0"); inception_movie (lit "1")]),
     {| collection := [inception_movie (lit "0"); inception_movie (lit "1")];
        minted := 2 |})
  /\ count (same_content (lit "Inception") [lit "Leo"; lit "Tom"] 2010)
       [inception_movie (lit "0"); inception_movie (lit "1")] = 2%nat.
Proof. split; vm_compute; reflexivity. Qed.

(** C6, amended: for every valid input, create followed by listAll, in a
    store the handlers can produce, yields the former records followed by
    one new record; the new record's content fields are the normalized
    input, its [id] is non-empty and was carried by no record before, so
    exactly one listed record carries it; the records matching the content
    are one more than before, hence exactly one when none matched.  An
    input is valid when it passes the required-field check, [parseInt]
    returns an integer-valued Number for its year (it neither throws nor
    gives NaN or an infinity), its title is text and its actors are a
    string or a sequence of texts. *)
Theorem C6_create_then_list :
  forall (b : value) (t : jsstring) (a : list jsstring) (y : Z) (s : Db),
    reachable s ->
    valid_input b t a y ->
    exists (m : Movie) (s' : Db),
      POST client (request b) s = (Normal (created m), s')
      /\ GET client s' = (Normal (listed (collection s ++ [m])), s')
      /\ (title m = t /\ actors m = a /\ year m = y)
      /\ id m <> []
      /\ ~ In (id m) (map id (collection s))
      /\ count (has_id (id m)) (collection s ++ [m]) = 1%nat
      /\ count (same_content t a y) (collection s ++ [m])
         = Datatypes.S (count (same_content t a y) (collection s)).
Proof.
  intros b t a y s Hr (Hp & d & Hd & Ht).
  pose proof (fresh_id s (reachable_wf s Hr)) as Hfresh.
  exists {| id := oid (minted s); title := t; actors := a; year := y |}.
  eexists. split.
  { rewrite (POST_delegates client b d s Hp Hd). simpl. unfold db_create.
    rewrite Ht. reflexivity. }
  split; [reflexivity|]. split; [now repeat split|]. simpl.
  split; [apply oid_nonempty|]. split; [exact Hfresh|]. split.
  - rewrite count_app, count_none.
    + unfold count, has_id. simpl. now rewrite jsstring_eqb_refl.
    + intros m Hin. apply has_id_false. intros Hid. apply Hfresh.
      apply in_map_iff. now exists m.
  - rewrite count_app. unfold count at 2, same_content. simpl.
    rewrite jsstring_eqb_refl, Z.eqb_refl.
    destruct (list_eq_dec (list_eq_dec N.eq_dec) a a); [|congruence].
    simpl. lia.
Qed.

Lemma C6_witness_inception :
  exists (m : Movie) (s' : Db),
    POST client (request inception) empty = (Normal (created m), s')
    /\ GET client s' = (Normal (listed (collection empty ++ [m])), s')
    /\ (title m = lit "Inception" /\ actors m = [lit "Leo"; lit "Tom"]
        /\ year m = 2010)
    /\ id m <> []
    /\ ~ In (id m) (map id (collection empty))
    /\ count (has_id (id m)) (collection empty ++ [m]) = 1%nat
    /\ count (same_content (lit "Inception") [lit "Leo"; lit "Tom"] 2010)
         (collection empty ++ [m])
       = Datatypes.S
           (count (same_content (lit "Inception") [lit "Leo"; lit "Tom"]
                     2010) (collection empty)).
Proof.
  apply (C6_create_then_list inception (lit "Inception")
           [lit "Leo"; lit "Tom"] 2010 empty reach_empty).
  split; [reflexivity|]. eexists. split; reflexivity.
Defined.

(** A year of 401 digits, and a year that holds an object with an own
    [toString], are not valid inputs: the first is an infinity, the second
    makes [parseInt] throw. *)
Example not_valid_inputs :
  (forall t a y,
     ~ valid_input
         (movie_body (Str (lit "T")) (Arr [])
            (Str (49%N :: repeat 48%N 400))) t a y)
  /\ (forall t a y,
        ~ valid_input
            (movie_body (Str (lit "T")) (Arr [])
               (Arr [Num (lit "5");
                     Obj [(lit "toString", Num (lit "1"))]])) t a y).
Proof.
  split; intros t a y (_ & d & Hd & Ht).
  - vm_compute in Hd. injection Hd as <-. vm_compute in Ht. discriminate Ht.
  - vm_compute in Hd. discriminate Hd.
Qed.

(** *** Delete, then list *)

(** C7: after a DELETE answered 200, in a store the handlers can produce,
    GET lists no record whose identifier is the deleted [id]. *)
Theorem C7_deleted_id_is_not_listed :
  forall (b : value) (s s' : Db) (r : Response),
    reachable s ->
    DELETE client (request b) s = (Normal r, s') ->
    status r = 200 ->
    exists l,
      GET client s' = (Normal (listed l), s')
      /\ forall m, In m l -> Str (id m) <> get b "id".
Proof.
  intros b s s' r Hr Hd Hs.
  exists (collection s'). split; [reflexivity|].
  destruct (DELETE_cases client (request b) s)
    as [E|[E|(b' & Hb & Hi & E)]];
    rewrite E in Hd; try (injection Hd as <- <-; discriminate Hs).
  injection Hb as <-. simpl in Hd. unfold db_delete in Hd.
  destruct (get b "id") as [| | | |i| |];
    try (injection Hd as <- <-; discriminate Hs).
  destruct (find (has_id i) (collection s)) as [found|] eqn:Ef;
    [|injection Hd as <- <-; discriminate Hs].
  injection Hd as <- <-. simpl. intros m Hin [= Hid]. revert Hid.
  apply (remove_first_gone i (collection s)); trivial.
  apply (reachable_wf s Hr).
Qed.

Lemma C7_witness_delete_first :
  DELETE client (request delete_first) one_movie
  = (Normal (deleted (inception_movie (lit "0"))),
     {| collection := []; minted := 1 |})
  /\ exists l,
    GET client {| collection := []; minted := 1 |}
    = (Normal (listed l), {| collection := []; minted := 1 |})
    /\ forall m, In m l -> Str (id m) <> get delete_first "id".
Proof.
  split; [reflexivity|].
  apply (C7_deleted_id_is_not_listed delete_first one_movie
           {| collection := []; minted := 1 |}
           (deleted (inception_movie (lit "0")))
           (reach_POST empty (request inception) reach_empty));
    reflexivity.
Defined.

(** *** Truthiness of the required fields *)

(** C9: the required-field check is JavaScript truthiness.  A body whose
    [year] is the number 0, or whose [title] is the empty string, is
    answered 400 "Missing required fields" by POST and PUT, the answer an
    empty object gets; a body whose [actors] is the empty array passes the
    check when the other fields are truthy: the handler goes on to
    [parseInt] and, when that returns, calls the store's write with the
    empty array for [actors]; when it throws the answer is the 500 of the
    [catch], not the 400 of the check. *)
Theorem C9_required_fields_checked_by_truthiness :
  forall (S : Type) (prisma : MovieDelegate S) (b : value) (s : S),
    (get b "year" = Num (lit "0") \/ get b "title" = Str [] ->
     POST prisma (request b) s = (Normal missing_fields, s)
     /\ PUT prisma (request b) s = (Normal missing_fields, s)
     /\ POST prisma (request b) s = POST prisma (request (Obj [])) s
     /\ PUT prisma (request b) s = PUT prisma (request (Obj [])) s)
    /\ (get b "actors" = Arr [] ->
        truthy (get b "title") = true -> truthy (get b "year") = true ->
        present b = true
        /\ (forall parsed,
              parseInt (get b "year") = Some parsed ->
              POST prisma (request b) s
              = settle created (failure "Failed to add movie")
                  (create prisma
                     {| data_title := get b "title";
                        data_actors := Arr [];
                        data_year := parsed |} s)
              /\ (truthy (get b "id") = true ->
                  PUT prisma (request b) s
                  = settle updated (failure "Failed to update movie")
                      (update prisma (get b "id")
                         {| data_title := get b "title";
                            data_actors := Arr [];
                            data_year := parsed |} s)))
        /\ (parseInt (get b "year") = None ->
            POST prisma (request b) s
            = (Normal (failure "Failed to add movie"), s)
            /\ (truthy (get b "id") = true ->
                PUT prisma (request b) s
                = (Normal (failure "Failed to update movie"), s)))).
Proof.
  intros S prisma b s. split.
  - intros H.
    assert (Hc : coercible b = true).
    { destruct H as [H|H]; destruct b; simpl in *; try discriminate;
        reflexivity. }
    assert (Hp : present b = false).
    { unfold present. destruct H as [H|H]; rewrite H; simpl;
        rewrite ?andb_false_r; reflexivity. }
    assert (Hpost : POST prisma (request b) s = (Normal missing_fields, s))
      by now apply POST_rejects.
    assert (Hput : PUT prisma (request b) s = (Normal missing_fields, s)).
    { apply PUT_rejects; trivial. rewrite Hp. apply andb_false_r. }
    repeat split; trivial.
  - intros Ha Ht Hy.
    assert (Hp : present b = true).
    { unfold present. now rewrite Ht, Ha, Hy. }
    split; [exact Hp|]. split.
    + intros parsed Hparse.
      pose proof (data_of_parsed b parsed Hparse) as Hd.
      rewrite Ha in Hd. simpl actors_data in Hd.
      split; [now apply POST_delegates|].
      intros Hi. now apply PUT_delegates.
    + intros Hparse. pose proof (data_of_thrown b Hparse) as Hd.
      split; [now apply POST_throws|].
      intros Hi. now apply PUT_throws.
Qed.

Lemma C9_witness_zero_year_and_empty_actors :
  POST client (request year_zero) one_movie = (Normal missing_fields, one_movie)
  /\ PUT client (request year_zero) one_movie
     = (Normal missing_fields, one_movie)
  /\ POST client (request no_actors) empty
     = (Normal (created {| id := lit "0"; title := lit "T"; actors := [];
                           year := 2000 |}),
        {| collection := [{| id := lit "0"; title := lit "T"; actors := [];
                             year := 2000 |}];
           minted := 1 |}).
Proof.
  destruct (C9_required_fields_checked_by_truthiness Db client year_zero
              one_movie) as (Hfalsy & _).
  destruct (Hfalsy (or_introl eq_refl)) as (Hpost & Hput & _).
  destruct (C9_required_fields_checked_by_truthiness Db client no_actors
              empty) as (_ & Hempty).
  destruct (Hempty eq_refl eq_refl eq_refl) as (_ & Hpass & _).
  destruct (Hpass (Finite 2000) eq_refl) as (Hcreate & _).
  split; [exact Hpost|]. split; [exact Hput|].
  rewrite Hcreate. reflexivity.
Defined.

(** *** No exception leaves a handler *)

(** C10: every handler completes normally with one response, whatever
    the request, the store and the store's behaviour: what is thrown by
    [req.json()], by the destructuring, by [parseInt] or by the store call
    is caught.  GET answers 200 or 500, POST 201, 400 or 500, PUT and
    DELETE 200, 400 or 500. *)
Theorem C10_handlers_always_respond :
  forall (S : Type) (prisma : MovieDelegate S) (req : Request) (s : S),
    (exists r s', GET prisma s = (Normal r, s')
                  /\ (status r = 200 \/ status r = 500))
    /\ (exists r s', POST prisma req s = (Normal r, s')
                     /\ (status r = 201 \/ status r = 400
                         \/ status r = 500))
    /\ (exists r s', PUT prisma req s = (Normal r, s')
                     /\ (status r = 200 \/ status r = 400
                         \/ status r = 500))
    /\ (exists r s', DELETE prisma req s = (Normal r, s')
                     /\ (status r = 200 \/ status r = 400
                         \/ status r = 500)).
Proof.
  intros S prisma req s. repeat split.
  - rewrite GET_delegates.
    destruct (findMany prisma s) as [[l|e] s']; simpl;
      eexists; eexists; (split; [reflexivity|simpl; auto]).
  - destruct (POST_cases prisma req s)
      as [E|[E|(b & d & _ & _ & _ & E)]];
      rewrite E; try (eexists; eexists; split; [reflexivity|simpl; auto]).
    destruct (create prisma d s) as [[m|e] s']; simpl;
      eexists; eexists; (split; [reflexivity|simpl; auto]).
  - destruct (PUT_cases prisma req s)
      as [E|[E|(b & d & _ & _ & _ & _ & E)]];
      rewrite E; try (eexists; eexists; split; [reflexivity|simpl; auto]).
    destruct (update prisma (get b "id") d s) as [[m|e] s'];
      simpl; eexists; eexists; (split; [reflexivity|simpl; auto]).
  - destruct (DELETE_cases prisma req s) as [E|[E|(b & _ & _ & E)]];
      rewrite E; try (eexists; eexists; split; [reflexivity|simpl; auto]).
    destruct (delete prisma (get b "id") s) as [[m|e] s']; simpl;
      eexists; eexists; (split; [reflexivity|simpl; auto]).
Qed.

(** *** The page's list *)

(** With no other update of the state in between, the closure sets what
    [handleSubmit] and [handleDelete] describe. *)
Lemma handleSubmit_at_same st response :
  Page.handleSubmit_at st st response = Page.handleSubmit st response.
Proof. reflexivity. Qed.

Lemma handleDelete_at_same st i response_ok :
  Page.handleDelete_at st st i response_ok
  = Page.handleDelete st i response_ok.
Proof. reflexivity. Qed.

(** C8 does not hold of the code when two submits are in flight: a
    successful create is then not appended to the page's list but
    replaces the record of the other create.  On a page that lists
    nothing, the form of the scenario is submitted twice before any
    answer arrives; the server creates two records and answers 201 twice.
    Both handlers closed over the empty list: the first answer sets the
    list to the first record, the second sets it to the second record
    alone, where appending would give both, as the store lists them. *)
Theorem C8_second_add_overwrites_the_first :
  Page.submit_method fresh_page = Page.mPOST
  /\ POST client (request (Page.submit_body fresh_page)) empty
     = (Normal (created (inception_movie (lit "0"))), one_movie)
  /\ POST client (request (Page.submit_body fresh_page)) one_movie
     = (Normal (created (inception_movie (lit "1"))),
        {| collection := [inception_movie (lit "0");
                          inception_movie (lit "1")];
           minted := 2 |})
  /\ Page.fetched (created (inception_movie (lit "0")))
     = Some (Page.Ok (inception_movie (lit "0")))
  /\ Page.fetched (created (inception_movie (lit "1")))
     = Some (Page.Ok (inception_movie (lit "1")))
  /\ Page.movies
       (Page.handleSubmit_at fresh_page fresh_page
          (Page.Ok (inception_movie (lit "0"))))
     = [inception_movie (lit "0")]
  /\ Page.movies
       (Page.handleSubmit_at fresh_page
          (Page.handleSubmit_at fresh_page fresh_page
             (Page.Ok (inception_movie (lit "0"))))
          (Page.Ok (inception_movie (lit "1"))))
     = [inception_movie (lit "1")]
  /\ Page.movies
       (Page.handleSubmit_at fresh_page
          (Page.handleSubmit_at fresh_page fresh_page
             (Page.Ok (inception_movie (lit "0"))))
          (Page.Ok (inception_movie (lit "1"))))
     <> Page.movies
          (Page.handleSubmit_at fresh_page fresh_page
             (Page.Ok (inception_movie (lit "0"))))
        ++ [inception_movie (lit "1")].
Proof.
  repeat split; try (vm_compute; reflexivity).
  vm_compute. discriminate.
Qed.

(* ================================================================== *)
(** ** Further properties: strings and numbers *)
(* ================================================================== *)

Module StringFacts.

Lemma dropWhile_suffix {A} (p : A -> bool) l :
  exists pre, l = pre ++ dropWhile p l.
Proof.
  induction l as [|x l [pre IH]]; simpl; [now exists []|].
  destruct (p x); [|now exists []].
  exists (x :: pre). simpl. now rewrite <- IH.
Qed.

Lemma dropWhile_head {A} (p : A -> bool) l c r :
  dropWhile p l = c :: r -> p c = false.
Proof.
  induction l as [|x l IH]; simpl; [discriminate|].
  destruct (p x) eqn:E; trivial. intros [= <- _]. exact E.
Qed.

Lemma dropWhile_idem {A} (p : A -> bool) l :
  dropWhile p (dropWhile p l) = dropWhile p l.
Proof.
  induction l as [|x l IH]; simpl; trivial.
  destruct (p x) eqn:E; trivial. simpl. now rewrite E.
Qed.

Lemma dropWhile_In {A} (p : A -> bool) l c :
  In c (dropWhile p l) -> In c l.
Proof.
  destruct (dropWhile_suffix p l) as [pre E]. intros H.
  rewrite E. apply in_or_app. now right.
Qed.

Lemma trimStart_idem s : trimStart (trimStart s) = trimStart s.
Proof. apply dropWhile_idem. Qed.

Lemma trimEnd_idem s : trimEnd (trimEnd s) = trimEnd s.
Proof.
  unfold trimEnd. now rewrite rev_involutive, dropWhile_idem.
Qed.

(** [trimEnd] keeps a prefix. *)
Lemma trimEnd_prefix s : exists suf, s = trimEnd s ++ suf.
Proof.
  unfold trimEnd.
  destruct (dropWhile_suffix isWhiteSpace (rev s)) as [pre E].
  exists (rev pre).
  rewrite <- rev_app_distr, <- E. now rewrite rev_involutive.
Qed.

Lemma trimStart_trimEnd s :
  trimStart s = s -> trimStart (trimEnd s) = trimEnd s.
Proof.
  intros Hs. destruct (trimEnd_prefix s) as [suf E].
  destruct (trimEnd s) as [|c r] eqn:Et; trivial.
  unfold trimStart. simpl.
  assert (Hc : isWhiteSpace c = false).
  { apply (dropWhile_head isWhiteSpace s c (r ++ suf)).
    unfold trimStart in Hs. rewrite Hs. exact E. }
  now rewrite Hc.
Qed.

(** What [trim] returns has no white space left at either end. *)
Lemma trim_start s : trimStart (trim s) = trim s.
Proof. unfold trim. apply trimStart_trimEnd, trimStart_idem. Qed.

Lemma trim_end s : trimEnd (trim s) = trim s.
Proof. unfold trim. apply trimEnd_idem. Qed.

Lemma trim_idem s : trim (trim s) = trim s.
Proof.
  unfold trim at 1. now rewrite trim_start, trim_end.
Qed.

Lemma trim_In s c : In c (trim s) -> In c s.
Proof.
  unfold trim, trimEnd, trimStart. intros H.
  apply in_rev, dropWhile_In, in_rev in H.
  now apply dropWhile_In in H.
Qed.

Lemma trim_first s c r : trim s = c :: r -> isWhiteSpace c = false.
Proof.
  intros H. pose proof (trim_start s) as E. rewrite H in E.
  unfold trimStart in E. simpl in E.
  destruct (isWhiteSpace c) eqn:Hc; trivial.
  exfalso. destruct (dropWhile_suffix isWhiteSpace r) as [pre Hp].
  rewrite E in Hp.
  apply (f_equal (@List.length N)) in Hp.
  rewrite length_app in Hp. simpl in Hp. lia.
Qed.

Lemma trim_last s c r : trim s = r ++ [c] -> isWhiteSpace c = false.
Proof.
  intros H. pose proof (trim_end s) as E. rewrite H in E.
  unfold trimEnd in E. rewrite rev_app_distr in E. simpl in E.
  destruct (isWhiteSpace c) eqn:Hc; trivial.
  exfalso. destruct (dropWhile_suffix isWhiteSpace (rev r)) as [pre Hp].
  apply (f_equal (@rev N)) in E. rewrite rev_involutive in E.
  rewrite E, rev_app_distr in Hp. simpl in Hp.
  apply (f_equal (@List.length N)) in Hp.
  rewrite length_app in Hp. simpl in Hp. rewrite length_rev in Hp. lia.
Qed.

(** [split] *)

Lemma split_length sep s :
  List.length (split sep s) = Datatypes.S (count_occ N.eq_dec s sep).
Proof.
  induction s as [|c s IH]; simpl; trivial.
  destruct (N.eqb_spec c sep) as [->|Hne].
  - simpl. rewrite IH. now destruct (N.eq_dec sep sep).
  - destruct (N.eq_dec c sep); [contradiction|].
    destruct (split sep s) as [|seg rest]; simpl in *; [discriminate|].
    exact IH.
Qed.

Lemma split_no_sep sep s :
  Forall (fun seg => ~ In sep seg) (split sep s).
Proof.
  induction s as [|c s IH]; simpl.
  - constructor; [intros []|constructor].
  - destruct (N.eqb_spec c sep) as [->|Hne].
    + constructor; [intros []|exact IH].
    + destruct (split sep s) as [|seg rest].
      * constructor; [|constructor]. intros [E|[]]. congruence.
      * inversion IH as [|? ? Hseg Hrest]; subst.
        constructor; trivial. intros [E|Hin]; [congruence|contradiction].
Qed.

Lemma join_split sep s : join [sep] (split sep s) = s.
Proof.
  induction s as [|c s IH]; simpl; trivial.
  destruct (N.eqb_spec c sep) as [->|Hne].
  - destruct (split sep s) as [|seg rest] eqn:E.
    + now destruct (split_not_nil sep s).
    + simpl. f_equal. exact IH.
  - destruct (split sep s) as [|seg rest] eqn:E.
    + now destruct (split_not_nil sep s).
    + destruct rest; simpl in *; now rewrite <- IH.
Qed.

Lemma split_whole sep x : ~ In sep x -> split sep x = [x].
Proof.
  induction x as [|c x IH]; simpl; trivial.
  intros H. destruct (N.eqb_spec c sep) as [->|Hne].
  - exfalso. apply H. now left.
  - rewrite IH; trivial. intros Hin. apply H. now right.
Qed.

Lemma split_app sep x r :
  ~ In sep x -> split sep (x ++ sep :: r) = x :: split sep r.
Proof.
  induction x as [|c x IH]; simpl.
  - intros _. now rewrite N.eqb_refl.
  - intros H. destruct (N.eqb_spec c sep) as [->|Hne].
    + exfalso. apply H. now left.
    + rewrite IH; trivial. intros Hin. apply H. now right.
Qed.

(** Names joined with ", " and split and trimmed again. *)
Lemma split_join_tail l :
  l <> [] ->
  Forall (fun n => ~ In comma n /\ trim n = n) l ->
  map trim (split comma (32%N :: join (lit ", ") l)) = l.
Proof.
  induction l as [|x l IH]; [congruence|]. intros _ H.
  inversion H as [|? ? [Hx Ht] Hl]; subst.
  assert (Hsp : ~ In comma (32%N :: x)).
  { intros [E|Hin]; [discriminate E|contradiction]. }
  assert (Htr : trim (32%N :: x) = x) by exact Ht.
  destruct l as [|y l].
  - simpl join. rewrite (split_whole comma (32%N :: x) Hsp).
    simpl. now rewrite Htr.
  - change (join (lit ", ") (x :: y :: l))
      with (x ++ comma :: 32%N :: join (lit ", ") (y :: l)).
    change (32%N :: x ++ comma :: 32%N :: join (lit ", ") (y :: l))
      with ((32%N :: x) ++ comma :: 32%N :: join (lit ", ") (y :: l)).
    rewrite (split_app comma (32%N :: x) _ Hsp), map_cons.
    rewrite Htr. f_equal. apply IH; [discriminate|exact Hl].
Qed.

Lemma split_join l :
  l <> [] ->
  Forall (fun n => ~ In comma n /\ trim n = n) l ->
  map trim (split comma (join (lit ", ") l)) = l.
Proof.
  destruct l as [|x l]; [congruence|]. intros _ H.
  inversion H as [|? ? [Hx Ht] Hl]; subst.
  destruct l as [|y l].
  - simpl join. rewrite (split_whole comma x Hx). simpl. now rewrite Ht.
  - change (join (lit ", ") (x :: y :: l))
      with (x ++ comma :: 32%N :: join (lit ", ") (y :: l)).
    rewrite (split_app comma x _ Hx), map_cons. rewrite Ht. f_equal.
    apply split_join_tail; [discriminate|exact Hl].
Qed.

(** Decimal digits *)

Lemma isDigit_not_space c : isDigit c = true -> isWhiteSpace c = false.
Proof.
  unfold isDigit, isWhiteSpace. intros H.
  apply andb_prop in H as [H1 H2].
  apply N.leb_le in H1, H2.
  repeat (apply orb_false_intro);
    first [ apply N.eqb_neq; lia
          | apply andb_false_iff; right; apply N.leb_gt; lia
          | apply andb_false_iff; left; apply N.leb_gt; lia ].
Qed.

Lemma takeWhile_app {A} (p : A -> bool) l c r :
  Forall (fun x => p x = true) l -> p c = false ->
  takeWhile p (l ++ c :: r) = l.
Proof.
  induction 1 as [|x l Hx _ IH]; simpl; intros Hc.
  - now rewrite Hc.
  - now rewrite Hx, IH.
Qed.

Lemma takeWhile_all {A} (p : A -> bool) l :
  Forall (fun x => p x = true) l -> takeWhile p l = l.
Proof.
  induction 1 as [|x l Hx _ IH]; simpl; trivial. now rewrite Hx, IH.
Qed.

Definition step (acc : Z) (d : N) : Z := 10 * acc + (Z.of_N d - 48).

Lemma digits_of_uint d acc :
  fold_left step (lit (NilEmpty.string_of_uint d))
    (Z.of_N (DecimalPos.Unsigned.of_lu acc))
  = Z.of_N (DecimalPos.Unsigned.of_lu (Decimal.revapp d acc))
  /\ Forall (fun c => isDigit c = true) (lit (NilEmpty.string_of_uint d)).
Proof.
  revert acc. unfold lit.
  induction d as [|d IH|d IH|d IH|d IH|d IH|d IH|d IH|d IH|d IH|d IH];
    intros acc; cbn [NilEmpty.string_of_uint list_ascii_of_string map
                     fold_left Decimal.revapp];
    [split; [reflexivity|apply Forall_nil]|..];
    match goal with
    | |- context [Decimal.revapp d (?D acc)] =>
        destruct (IH (D acc)) as [IH1 IH2]; split;
        [ rewrite <- IH1; f_equal; unfold step;
          cbn [DecimalPos.Unsigned.of_lu N_of_ascii N_of_digits]; lia
        | apply Forall_cons; [reflexivity|exact IH2] ]
    end.
Qed.

Lemma digits_of_N n :
  digitsValue (lit (NilEmpty.string_of_uint (N.to_uint n))) = Z.of_N n
  /\ Forall (fun c => isDigit c = true)
       (lit (NilEmpty.string_of_uint (N.to_uint n)))
  /\ lit (NilEmpty.string_of_uint (N.to_uint n)) <> [].
Proof.
  destruct (digits_of_uint (N.to_uint n) Decimal.Nil) as [Hv Hd].
  split; [|split; [exact Hd|exact (StoreFacts.oid_nonempty n)]].
  unfold digitsValue.
  change 0 with (Z.of_N (DecimalPos.Unsigned.of_lu Decimal.Nil)).
  change (fun acc d => 10 * acc + (Z.of_N d - 48)) with step.
  rewrite Hv. f_equal.
  change (Decimal.revapp (N.to_uint n) Decimal.Nil)
    with (Decimal.rev (N.to_uint n)).
  rewrite <- DecimalPos.Unsigned.of_uint_alt.
  apply DecimalN.Unsigned.of_to.
Qed.

End StringFacts.

Module NumberFacts.
Import StringFacts.

Lemma isDigit_not_sign c :
  isDigit c = true -> (c =? 45)%N = false /\ (c =? 43)%N = false.
Proof.
  unfold isDigit. intros H. apply andb_prop in H as [H1 H2].
  apply N.leb_le in H1, H2. split; apply N.eqb_neq; lia.
Qed.

(** An integer below 2^53 in absolute value is its own Number. *)
Lemma toDouble_small z : Z.abs z < 2 ^ 53 -> toDouble z = Finite z.
Proof.
  intros H. unfold toDouble.
  destruct (Z.ltb_spec (Z.abs z) (2 ^ 53)) as [_|Hge]; [reflexivity|].
  exfalso. apply (Z.lt_irrefl (Z.abs z)).
  eapply Z.lt_le_trans; eassumption.
Qed.

(** [parseInt] on the text of a string, a number or a boolean does not
    throw. *)
Lemma parseInt_Str text : parseInt (Str text) = Some (parseDigits text).
Proof. reflexivity. Qed.

(** The digits read from a run of digits followed by something that is
    not a digit, or by nothing. *)
Lemma parseDigits_digits ds rest :
  ds <> [] -> Forall (fun c => isDigit c = true) ds ->
  match rest with [] => True | c :: _ => isDigit c = false end ->
  parseDigits (ds ++ rest) = toDouble (digitsValue ds)
  /\ parseDigits (45%N :: ds ++ rest) = toDouble (- digitsValue ds).
Proof.
  intros Hne Hd Hr.
  assert (Ht : takeWhile isDigit (ds ++ rest) = ds).
  { destruct rest as [|c r].
    - rewrite List.app_nil_r. now apply takeWhile_all.
    - now apply takeWhile_app. }
  destruct ds as [|d ds]; [congruence|].
  inversion Hd as [|? ? Hd0 _]; subst.
  destruct (isDigit_not_sign d Hd0) as [Hm Hp].
  pose proof (isDigit_not_space d Hd0) as Hw.
  split.
  - unfold parseDigits, trimStart.
    change ((d :: ds) ++ rest) with (d :: ds ++ rest) in *.
    cbn [dropWhile]. rewrite Hw, Hm, Hp. now rewrite Ht.
  - assert (E : forall s,
               parseDigits (45%N :: s)
               = match takeWhile isDigit s with
                 | [] => NaN
                 | x :: xs => toDouble (- digitsValue (x :: xs))
                 end) by reflexivity.
    rewrite E, Ht. reflexivity.
Qed.

(** A Number holding an integer below 2^53 is read back by [parseInt]
    from its text, as a string and as the number [JSON.parse] delivers. *)
Lemma parseInt_NumberToString z :
  Z.abs z < 2 ^ 53 ->
  parseInt (Str (NumberToString (Finite z))) = Some (Finite z)
  /\ parseInt (json_number (Finite z)) = Some (Finite z).
Proof.
  intros Hb.
  assert (H : parseDigits (NumberToString (Finite z)) = Finite z).
  { unfold NumberToString.
    destruct (digits_of_N (Z.abs_N z)) as (Hv & Hd & Hne).
    set (ds := lit (NilEmpty.string_of_uint (N.to_uint (Z.abs_N z)))) in *.
    destruct (parseDigits_digits ds [] Hne Hd I) as [Hpos Hneg].
    rewrite List.app_nil_r in Hpos, Hneg.
    rewrite N2Z.inj_abs_N in Hv.
    destruct (Z.ltb_spec z 0) as [Hz|Hz].
    - change ([45%N] ++ ds) with (45%N :: ds).
      rewrite Hneg, Hv. replace (- Z.abs z) with z by lia.
      now apply toDouble_small.
    - change ([] ++ ds) with ds.
      rewrite Hpos, Hv. replace (Z.abs z) with z by lia.
      now apply toDouble_small. }
  split; unfold parseInt, json_number; cbn [ToString]; now rewrite H.
Qed.

(** What the server reads of a year the page parsed and sent. *)
Lemma parseInt_json_number n :
  n = NaN \/ (exists z, n = Finite z /\ Z.abs z < 2 ^ 53) ->
  parseInt (json_number n) = Some n.
Proof.
  intros [->|(z & -> & Hb)]; [reflexivity|].
  now apply parseInt_NumberToString.
Qed.

Lemma NumberToString_zero z :
  NumberToString (Finite z) = lit "0" -> z = 0.
Proof.
  unfold NumberToString. destruct (Z.ltb_spec z 0) as [Hz|Hz].
  - discriminate.
  - intros H. change ([] ++ ?l) with l in H.
    change (lit "0") with (Store.oid 0) in H.
    apply StoreFacts.oid_inj in H. lia.
Qed.

Lemma truthy_json_number z :
  truthy (json_number (Finite z)) = negb (z =? 0).
Proof.
  simpl. destruct (Z.eqb_spec z 0) as [->|Hz]; [reflexivity|].
  simpl. apply negb_true_iff, StoreFacts.jsstring_eqb_neq.
  intros H. now apply NumberToString_zero in H.
Qed.

End NumberFacts.

(* ================================================================== *)
(** ** Further properties of route.ts *)
(* ================================================================== *)

Section RouteExt.

Context {S : Type} (prisma : MovieDelegate S).

(** The outcome of POST and PUT depends on the body only through the
    required-field check and the data built for the store. *)
Lemma POST_ext b1 b2 s :
  coercible b1 = true -> coercible b2 = true ->
  present b1 = present b2 -> data_of b1 = data_of b2 ->
  POST prisma (request b1) s = POST prisma (request b2) s.
Proof.
  intros C1 C2 Hp Hd. destruct (present b1) eqn:E.
  - symmetry in Hp. destruct (data_of b1) as [d|] eqn:E1; symmetry in Hd.
    + now rewrite (POST_delegates prisma b1 d s E E1),
                  (POST_delegates prisma b2 d s Hp Hd).
    + now rewrite (POST_throws prisma b1 s E E1),
                  (POST_throws prisma b2 s Hp Hd).
  - rewrite !POST_rejects by congruence. reflexivity.
Qed.

Lemma PUT_ext b1 b2 s :
  coercible b1 = true -> coercible b2 = true ->
  get b1 "id" = get b2 "id" ->
  present b1 = present b2 -> data_of b1 = data_of b2 ->
  PUT prisma (request b1) s = PUT prisma (request b2) s.
Proof.
  intros C1 C2 Hi Hp Hd.
  destruct (truthy (get b1 "id") && present b1) eqn:E.
  - apply andb_prop in E as [Ei Ep].
    assert (Ei2 : truthy (get b2 "id") = true) by congruence.
    assert (Ep2 : present b2 = true) by congruence.
    destruct (data_of b1) as [d|] eqn:E1; symmetry in Hd.
    + rewrite (PUT_delegates prisma b1 d s Ei Ep E1),
              (PUT_delegates prisma b2 d s Ei2 Ep2 Hd). now rewrite Hi.
    + now rewrite (PUT_throws prisma b1 s Ei Ep E1),
                  (PUT_throws prisma b2 s Ei2 Ep2 Hd).
  - rewrite !PUT_rejects; trivial; congruence.
Qed.

Lemma DELETE_ext b1 b2 s :
  coercible b1 = true -> coercible b2 = true ->
  get b1 "id" = get b2 "id" ->
  DELETE prisma (request b1) s = DELETE prisma (request b2) s.
Proof.
  intros C1 C2 Hi. destruct (truthy (get b1 "id")) eqn:E.
  - rewrite !DELETE_delegates by congruence. now rewrite Hi.
  - rewrite !DELETE_rejects; trivial; congruence.
Qed.

Lemma fields_ext b1 b2 :
  get b1 "title" = get b2 "title" -> get b1 "actors" = get b2 "actors" ->
  get b1 "year" = get b2 "year" ->
  present b1 = present b2 /\ data_of b1 = data_of b2.
Proof.
  intros Ht Ha Hy. unfold present, data_of. now rewrite Ht, Ha, Hy.
Qed.

End RouteExt.

Lemma get_coercible b k v : get b k = v -> v <> Undefined -> coercible b = true.
Proof.
  intros H Hv. destruct b; simpl in *; trivial; congruence.
Qed.

(** X1: a DELETE whose body is a JSON value other than [null] (so that
    reading a field of it does not throw) and has no [id], or a falsy one
    (null, false, 0, the empty string), is answered 400 "Missing movie ID"
    and the store is left as it was, whatever the store: its delete is not
    called.  (A [null] body or one that is not JSON is answered 500, see
    X2.) *)
Theorem X1_delete_without_id_is_400 :
  forall (S : Type) (prisma : MovieDelegate S) (b : value) (s : S),
    coercible b = true ->
    truthy (get b "id") = false ->
    DELETE prisma (request b) s
    = (Normal {| status := 400; body := ErrorJson "Missing movie ID" |}, s).
Proof. intros S prisma b s Hc Hi. now apply DELETE_rejects. Qed.

Lemma X1_witness_empty_object :
  DELETE client (request (Obj [])) one_movie
  = (Normal {| status := 400; body := ErrorJson "Missing movie ID" |},
     one_movie).
Proof.
  apply (X1_delete_without_id_is_400 Db client (Obj []) one_movie);
    reflexivity.
Defined.

(** X2: a request whose body is not JSON, or is the JSON [null], is
    answered 500 by POST, PUT and DELETE (each with its own message), not
    400, and the store is left as it was, whatever the store. *)
Theorem X2_unreadable_body_is_500 :
  forall (S : Type) (prisma : MovieDelegate S) (req : Request) (s : S),
    parsed_body req = None \/ parsed_body req = Some Null ->
    POST prisma req s
    = (Normal {| status := 500; body := ErrorJson "Failed to add movie" |}, s)
    /\ PUT prisma req s
       = (Normal {| status := 500;
                    body := ErrorJson "Failed to update movie" |}, s)
    /\ DELETE prisma req s
       = (Normal {| status := 500;
                    body := ErrorJson "Failed to delete movie" |}, s).
Proof.
  intros S prisma [p] s [H|H]; simpl in H; subst p; repeat split.
Qed.

Lemma X2_witness_null_body :
  POST client (request Null) one_movie
  = (Normal {| status := 500; body := ErrorJson "Failed to add movie" |},
     one_movie)
  /\ PUT client (request Null) one_movie
     = (Normal {| status := 500;
                  body := ErrorJson "Failed to update movie" |}, one_movie)
  /\ DELETE client (request Null) one_movie
     = (Normal {| status := 500;
                  body := ErrorJson "Failed to delete movie" |}, one_movie).
Proof.
  apply (X2_unreadable_body_is_500 Db client (request Null) one_movie).
  right. reflexivity.
Defined.

(** X3: a handler reads nothing of the body but its own fields.  Two
    bodies with the same [title], [actors] and [year] get the same outcome
    from POST (an [id] sent on create is ignored), with the same [id] also
    from PUT, and two bodies with the same [id] the same outcome from
    DELETE, whatever the store. *)
Theorem X3_handlers_read_only_their_fields :
  forall (S : Type) (prisma : MovieDelegate S) (b1 b2 : value) (s : S),
    coercible b1 = true -> coercible b2 = true ->
    (get b1 "title" = get b2 "title" -> get b1 "actors" = get b2 "actors" ->
     get b1 "year" = get b2 "year" ->
     POST prisma (request b1) s = POST prisma (request b2) s
     /\ (get b1 "id" = get b2 "id" ->
         PUT prisma (request b1) s = PUT prisma (request b2) s))
    /\ (get b1 "id" = get b2 "id" ->
        DELETE prisma (request b1) s = DELETE prisma (request b2) s).
Proof.
  intros S prisma b1 b2 s C1 C2. split.
  - intros Ht Ha Hy. destruct (fields_ext b1 b2 Ht Ha Hy) as [Hp Hd].
    split; [now apply POST_ext|]. intros Hi. now apply PUT_ext.
  - intros Hi. now apply DELETE_ext.
Qed.

Lemma X3_witness_id_ignored_on_create :
  POST client (request abc_update) empty = POST client (request abc) empty.
Proof.
  destruct (X3_handlers_read_only_their_fields Db client abc_update abc
              empty eq_refl eq_refl) as [H _].
  destruct (H eq_refl eq_refl eq_refl) as [Hpost _]. exact Hpost.
Defined.

(** X4: POST answers 201 only when the check passed, [parseInt] returned
    and the store's create resolved, and the body is then the record the
    store returned; PUT answers 200 only when the store's update resolved,
    with the record it returned.  Every other answer is a 400 or a 500
    whose body is an [{error}] object. *)
Theorem X4_write_answers_follow_the_store :
  forall (S : Type) (prisma : MovieDelegate S) (req : Request) (s s' : S)
         (r : Response),
    (POST prisma req s = (Normal r, s') ->
     (status r = 201
      /\ exists b d m, parsed_body req = Some b /\ present b = true
                       /\ data_of b = Some d
                       /\ create prisma d s = (Normal m, s')
                       /\ body r = MovieJson m)
     \/ ((status r = 400 \/ status r = 500)
         /\ exists msg, body r = ErrorJson msg))
    /\ (PUT prisma req s = (Normal r, s') ->
        (status r = 200
         /\ exists b d m, parsed_body req = Some b
                          /\ truthy (get b "id") = true /\ present b = true
                          /\ data_of b = Some d
                          /\ update prisma (get b "id") d s = (Normal m, s')
                          /\ body r = MovieJson m)
        \/ ((status r = 400 \/ status r = 500)
            /\ exists msg, body r = ErrorJson msg)).
Proof.
  intros S prisma req s s' r. split; intros H.
  - destruct (POST_cases prisma req s)
      as [E|[E|(b & d & Hb & Hp & Hd & E)]]; rewrite E in H.
    + injection H as <- <-. right. split; [now right|]. now eexists.
    + injection H as <- <-. right. split; [now left|]. now eexists.
    + destruct (create prisma d s) as [[m|e] s0] eqn:Ec;
        simpl in H; injection H as <- <-.
      * left. split; trivial. exists b, d, m. now repeat split.
      * right. split; [now right|]. now eexists.
  - destruct (PUT_cases prisma req s)
      as [E|[E|(b & d & Hb & Hi & Hp & Hd & E)]]; rewrite E in H.
    + injection H as <- <-. right. split; [now right|]. now eexists.
    + injection H as <- <-. right. split; [now left|]. now eexists.
    + destruct (update prisma (get b "id") d s)
        as [[m|e] s0] eqn:Ec; simpl in H; injection H as <- <-.
      * left. split; trivial. exists b, d, m. now repeat split.
      * right. split; [now right|]. now eexists.
Qed.

Lemma X4_witness_created :
  (status (created (inception_movie (lit "0"))) = 201
   /\ exists b d m, parsed_body (request inception) = Some b
                    /\ present b = true
                    /\ data_of b = Some d
                    /\ create client d empty = (Normal m, one_movie)
                    /\ body (created (inception_movie (lit "0")))
                       = MovieJson m)
  \/ ((status (created (inception_movie (lit "0"))) = 400
       \/ status (created (inception_movie (lit "0"))) = 500)
      /\ exists msg,
           body (created (inception_movie (lit "0"))) = ErrorJson msg).
Proof.
  apply (X4_write_answers_follow_the_store Db client (request inception)
           empty one_movie (created (inception_movie (lit "0")))).
  reflexivity.
Defined.

(** X5: DELETE answers 200 only when the [id] was truthy and the store's
    delete resolved, and the body is then the fixed message, not the
    record; GET answers 200 only when the store's findMany resolved, with
    the list it returned as body.  Every other answer of DELETE is a 400
    or a 500, and of GET a 500, with an [{error}] body. *)
Theorem X5_delete_and_list_answers_follow_the_store :
  forall (S : Type) (prisma : MovieDelegate S) (req : Request) (s s' : S)
         (r : Response),
    (DELETE prisma req s = (Normal r, s') ->
     (r = {| status := 200;
             body := MessageJson "Movie deleted successfully" |}
      /\ exists b m, parsed_body req = Some b
                     /\ truthy (get b "id") = true
                     /\ delete prisma (get b "id") s = (Normal m, s'))
     \/ ((status r = 400 \/ status r = 500)
         /\ exists msg, body r = ErrorJson msg))
    /\ (GET prisma s = (Normal r, s') ->
        (exists l, findMany prisma s = (Normal l, s')
                   /\ r = {| status := 200; body := MoviesJson l |})
        \/ ((exists e, findMany prisma s = (Throw e, s'))
            /\ r = {| status := 500;
                      body := ErrorJson "Failed to fetch movies" |})).
Proof.
  intros S prisma req s s' r. split; intros H.
  - destruct (DELETE_cases prisma req s) as [E|[E|(b & Hb & Hi & E)]];
      rewrite E in H.
    + injection H as <- <-. right. split; [now right|]. now eexists.
    + injection H as <- <-. right. split; [now left|]. now eexists.
    + destruct (delete prisma (get b "id") s) as [[m|e] s0] eqn:Ec;
        simpl in H; injection H as <- <-.
      * left. split; trivial. exists b, m. now repeat split.
      * right. split; [now right|]. now eexists.
  - rewrite GET_delegates in H.
    destruct (findMany prisma s) as [[l|e] s0]; simpl in H;
      injection H as <- <-.
    + left. now exists l.
    + right. split; [now exists e|reflexivity].
Qed.

Lemma X5_witness_list_one_movie :
  (exists l, findMany client one_movie = (Normal l, one_movie)
             /\ listed [inception_movie (lit "0")]
                = {| status := 200; body := MoviesJson l |})
  \/ ((exists e, findMany client one_movie = (Throw e, one_movie))
      /\ listed [inception_movie (lit "0")]
         = {| status := 500; body := ErrorJson "Failed to fetch movies" |}).
Proof.
  destruct (X5_delete_and_list_answers_follow_the_store Db client
              (request Null) one_movie one_movie
              (listed [inception_movie (lit "0")])) as [_ H].
  apply H. reflexivity.
Defined.

(** X6: the names POST and PUT make of a string of actors.  There is one
    name per comma-separated segment, so one more than the string has
    commas; the segments joined with commas give the string back; no name
    holds a comma, none starts or ends with white space, and trimming a
    name again changes nothing. *)
Theorem X6_actor_names_from_a_string :
  forall s : jsstring,
    actors_data (Str s) = Arr (map Str (map trim (split comma s)))
    /\ List.length (map trim (split comma s))
       = Datatypes.S (count_occ N.eq_dec s comma)
    /\ join [comma] (split comma s) = s
    /\ Forall (fun n =>
                 ~ In comma n
                 /\ trim n = n
                 /\ (forall c r, n = c :: r -> isWhiteSpace c = false)
                 /\ (forall c r, n = r ++ [c] -> isWhiteSpace c = false))
         (map trim (split comma s)).
Proof.
  intros s. split; [reflexivity|]. split.
  { rewrite length_map. apply StringFacts.split_length. }
  split; [apply StringFacts.join_split|].
  apply Forall_map.
  eapply Forall_impl; [|apply (StringFacts.split_no_sep comma s)].
  intros seg Hseg. repeat split.
  - intros Hin. apply Hseg. now apply StringFacts.trim_In.
  - apply StringFacts.trim_idem.
  - intros c r E. rewrite <- (StringFacts.trim_idem seg) in E.
    now apply StringFacts.trim_first in E.
  - intros c r E. rewrite <- (StringFacts.trim_idem seg) in E.
    now apply StringFacts.trim_last in E.
Qed.

(** X7: a year sent as a JSON number and the same digits sent as a
    string are handled alike by POST and PUT, whatever the store, when
    the number is not 0: both pass the check and [parseInt] reads the same
    text. *)
Theorem X7_year_as_number_or_string :
  forall (S : Type) (prisma : MovieDelegate S) (b1 b2 : value)
         (r : jsstring) (s : S),
    get b1 "title" = get b2 "title" -> get b1 "actors" = get b2 "actors" ->
    get b1 "year" = Num r -> get b2 "year" = Str r ->
    r <> [] -> r <> lit "0" ->
    POST prisma (request b1) s = POST prisma (request b2) s
    /\ (get b1 "id" = get b2 "id" ->
        PUT prisma (request b1) s = PUT prisma (request b2) s).
Proof.
  intros S prisma b1 b2 r s Ht Ha Hy1 Hy2 Hne H0.
  assert (C1 : coercible b1 = true)
    by (apply (get_coercible b1 "year" (Num r)); [trivial|discriminate]).
  assert (C2 : coercible b2 = true)
    by (apply (get_coercible b2 "year" (Str r)); [trivial|discriminate]).
  assert (Hp : present b1 = present b2).
  { unfold present. rewrite Ht, Ha, Hy1, Hy2. f_equal. simpl.
    apply StoreFacts.jsstring_eqb_neq in H0. rewrite H0.
    destruct r; [congruence|reflexivity]. }
  assert (Hd : data_of b1 = data_of b2).
  { unfold data_of. rewrite Ht, Ha, Hy1, Hy2. reflexivity. }
  split; [now apply POST_ext|]. intros Hi. now apply PUT_ext.
Qed.

Lemma X7_witness_2000 :
  POST client
    (request (movie_body (Str (lit "T")) (Str (lit "A, B ,C"))
                (Num (lit "2000")))) empty
  = POST client (request abc) empty.
Proof.
  destruct (X7_year_as_number_or_string Db client
              (movie_body (Str (lit "T")) (Str (lit "A, B ,C"))
                 (Num (lit "2000")))
              abc (lit "2000") empty eq_refl eq_refl eq_refl eq_refl)
    as [H _]; [discriminate|discriminate|exact H].
Defined.

(** X8: [parseInt] reads the leading digits of a year, as the Number
    nearest to them, and ignores what follows them.  A year string made
    of digits followed by anything that does not start with a digit is
    handled by POST and PUT as the digits alone, whatever the store: the
    rest of the text is dropped without an error. *)
Theorem X8_text_after_the_year_is_ignored :
  forall (S : Type) (prisma : MovieDelegate S) (b1 b2 : value)
         (ds rest : jsstring) (c : N) (s : S),
    ds <> [] -> Forall (fun d => isDigit d = true) ds ->
    isDigit c = false ->
    get b1 "title" = get b2 "title" -> get b1 "actors" = get b2 "actors" ->
    get b1 "year" = Str (ds ++ c :: rest) -> get b2 "year" = Str ds ->
    parseInt (get b1 "year") = Some (toDouble (digitsValue ds))
    /\ POST prisma (request b1) s = POST prisma (request b2) s
    /\ (get b1 "id" = get b2 "id" ->
        PUT prisma (request b1) s = PUT prisma (request b2) s).
Proof.
  intros S prisma b1 b2 ds rest c s Hne Hd Hc Ht Ha Hy1 Hy2.
  destruct (NumberFacts.parseDigits_digits ds (c :: rest) Hne Hd Hc)
    as [P1 _].
  destruct (NumberFacts.parseDigits_digits ds [] Hne Hd I) as [P2 _].
  rewrite List.app_nil_r in P2.
  assert (C1 : coercible b1 = true)
    by (apply (get_coercible b1 "year" _ Hy1); discriminate).
  assert (C2 : coercible b2 = true)
    by (apply (get_coercible b2 "year" _ Hy2); discriminate).
  assert (Hp : present b1 = present b2).
  { unfold present. rewrite Ht, Ha, Hy1, Hy2. f_equal.
    destruct ds; [congruence|reflexivity]. }
  assert (Hdata : data_of b1 = data_of b2).
  { unfold data_of. rewrite Ht, Ha, Hy1, Hy2.
    rewrite !NumberFacts.parseInt_Str. now rewrite P1, P2. }
  split; [rewrite Hy1, NumberFacts.parseInt_Str; now rewrite P1|].
  split; [now apply POST_ext|]. intros Hi. now apply PUT_ext.
Qed.

Lemma X8_witness_2000abc :
  parseInt (Str (lit "2000abc")) = Some (Finite 2000)
  /\ POST client
       (request (movie_body (Str (lit "T")) (Str (lit "A, B ,C"))
                   (Str (lit "2000abc")))) empty
     = POST client (request abc) empty.
Proof.
  destruct (X8_text_after_the_year_is_ignored Db client
              (movie_body (Str (lit "T")) (Str (lit "A, B ,C"))
                 (Str (lit "2000abc")))
              abc (lit "2000") (lit "bc") 97%N empty)
    as (Hp & Hpost & _);
    try reflexivity; try discriminate.
  - repeat constructor.
  - split; [exact Hp|exact Hpost].
Defined.

(* ================================================================== *)
(** ** Further properties of page.tsx *)
(* ================================================================== *)

Module PageFacts.
Import Page.

Lemma get_submit_fields f :
  lookup (lit "title") (submit_fields f) = Str (form_title f)
  /\ lookup (lit "actors") (submit_fields f)
     = Arr (map Str (map trim (split comma (form_actors f))))
  /\ lookup (lit "year") (submit_fields f)
     = json_number (parseDigits (form_year f))
  /\ lookup (lit "id") (submit_fields f) = Undefined.
Proof. repeat split; reflexivity. Qed.

Lemma get_submit_body st :
  get (submit_body st) "title" = Str (form_title (newMovie st))
  /\ get (submit_body st) "actors"
     = Arr (map Str (map trim (split comma (form_actors (newMovie st)))))
  /\ get (submit_body st) "year"
     = json_number (parseDigits (form_year (newMovie st)))
  /\ get (submit_body st) "id"
     = match editingMovie st with
       | Some m => Str (id m)
       | None => Undefined
       end.
Proof.
  unfold submit_body. destruct (editingMovie st); repeat split; reflexivity.
Qed.

Lemma submit_body_coercible st : coercible (submit_body st) = true.
Proof. unfold submit_body. now destruct (editingMovie st). Qed.

(** The data the server builds from the page's request, when the year
    of the form has no leading digits or reads as an integer below
    2^53. *)
Lemma data_of_submit_body st n :
  parseInt (Str (form_year (newMovie st))) = Some n ->
  n = NaN \/ (exists z, n = Finite z /\ Z.abs z < 2 ^ 53) ->
  data_of (submit_body st)
  = Some {| data_title := Str (form_title (newMovie st));
            data_actors :=
              Arr (map Str (map trim
                     (split comma (form_actors (newMovie st)))));
            data_year := n |}.
Proof.
  intros Hn Hb. rewrite NumberFacts.parseInt_Str in Hn.
  injection Hn as Hn.
  destruct (get_submit_body st) as (Ht & Ha & Hy & _).
  unfold data_of. rewrite Ht, Ha, Hy, Hn.
  now rewrite (NumberFacts.parseInt_json_number n Hb).
Qed.

(** The server's check on the page's request. *)
Lemma present_submit_body st :
  present (submit_body st)
  = match form_title (newMovie st) with [] => false | _ => true end
    && match parseDigits (form_year (newMovie st)) with
       | NaN | Infinity _ => false
       | Finite z => negb (z =? 0)
       end.
Proof.
  destruct (get_submit_body st) as (Ht & Ha & Hy & _).
  unfold present. rewrite Ht, Ha, Hy. simpl truthy at 1 2.
  rewrite andb_true_r. f_equal.
  destruct (parseDigits (form_year (newMovie st))) as [|neg|z];
    [reflexivity|reflexivity|]. apply NumberFacts.truthy_json_number.
Qed.

End PageFacts.

(** X9: when the year of the form has no leading digits, or reads as an
    integer below 2^53 in absolute value (so not as one rounded to a
    double or to Infinity), the server builds from the page's request the
    data it would build from the three raw form texts sent as strings:
    the names split and trimmed by the page pass through the server
    unchanged ([actors] always arrives as an array, never as a string)
    and the year the page parsed is the year the server parses.  The
    request is a PUT carrying the edited record's [id] when a record is
    being edited, a POST without [id] otherwise. *)
Theorem X9_page_request_carries_the_form :
  forall st : Page.State,
    parseInt (Str (Page.form_year (Page.newMovie st))) = Some NaN
    \/ (exists z,
          parseInt (Str (Page.form_year (Page.newMovie st)))
          = Some (Finite z) /\ Z.abs z < 2 ^ 53) ->
    data_of (Page.submit_body st)
    = data_of (movie_body (Str (Page.form_title (Page.newMovie st)))
                 (Str (Page.form_actors (Page.newMovie st)))
                 (Str (Page.form_year (Page.newMovie st))))
    /\ is_string (get (Page.submit_body st) "actors") = false
    /\ actors_data (get (Page.submit_body st) "actors")
       = get (Page.submit_body st) "actors"
    /\ (forall m, Page.editingMovie st = Some m ->
                  Page.submit_method st = Page.mPUT
                  /\ get (Page.submit_body st) "id" = Str (id m))
    /\ (Page.editingMovie st = None ->
        Page.submit_method st = Page.mPOST
        /\ get (Page.submit_body st) "id" = Undefined).
Proof.
  intros st Hyear.
  destruct (PageFacts.get_submit_body st) as (Ht & Ha & Hy & Hi).
  split.
  { assert (H : exists n,
                parseInt (Str (Page.form_year (Page.newMovie st))) = Some n
                /\ (n = NaN \/ exists z, n = Finite z /\ Z.abs z < 2 ^ 53)).
    { destruct Hyear as [H|(z & H & Hb)].
      - exists NaN. split; [exact H|now left].
      - exists (Finite z). split; [exact H|]. right. now exists z. }
    destruct H as (n & Hn & Hb).
    rewrite (PageFacts.data_of_submit_body st n Hn Hb).
    unfold data_of.
    change (get (movie_body ?t ?a ?y) "year") with y.
    now rewrite Hn. }
  rewrite Ha. split; [reflexivity|]. split; [reflexivity|].
  unfold Page.submit_method. split.
  - intros m Hm. rewrite Hi, Hm. now split.
  - intros Hm. rewrite Hi, Hm. now split.
Qed.

Lemma X9_witness_editing :
  Page.submit_method
    (Page.handleEdit
       {| Page.movies := []; Page.newMovie := Page.blank;
          Page.editingMovie := None; Page.alerts := [] |}
       (inception_movie (lit "0"))) = Page.mPUT
  /\ get (Page.submit_body
            (Page.handleEdit
               {| Page.movies := []; Page.newMovie := Page.blank;
                  Page.editingMovie := None; Page.alerts := [] |}
               (inception_movie (lit "0")))) "id" = Str (lit "0").
Proof.
  destruct (X9_page_request_carries_the_form
              (Page.handleEdit
                 {| Page.movies := []; Page.newMovie := Page.blank;
                    Page.editingMovie := None; Page.alerts := [] |}
                 (inception_movie (lit "0")))) as (_ & _ & _ & H & _).
  - right. exists 2010. split; reflexivity.
  - exact (H _ eq_refl).
Defined.

(** X10: a form whose title is empty, or whose year has no leading
    digits, reads as 0 or is too long to be a finite Number, is refused
    by the server whatever the store:
    the page sends the year as [null] or 0, the answer is 400 "Missing
    required fields" with the store untouched, and the page raises
    "Failed to save movie" and keeps its list, its form and its editing
    state. *)
Theorem X10_page_submit_refused_by_the_check :
  forall (S : Type) (prisma : MovieDelegate S) (st : Page.State) (s : S),
    Page.form_title (Page.newMovie st) = []
    \/ parseInt (Str (Page.form_year (Page.newMovie st))) = Some NaN
    \/ parseInt (Str (Page.form_year (Page.newMovie st))) = Some (Finite 0)
    \/ (exists negative,
          parseInt (Str (Page.form_year (Page.newMovie st)))
          = Some (Infinity negative)) ->
    Page.fetch_api prisma (Page.submit_method st) (Page.submit_body st) s
    = (Normal {| status := 400;
                 body := ErrorJson "Missing required fields" |}, s)
    /\ Page.fetched {| status := 400;
                       body := ErrorJson "Missing required fields" |}
       = Some Page.NotOk
    /\ Page.handleSubmit st Page.NotOk
       = {| Page.movies := Page.movies st;
            Page.newMovie := Page.newMovie st;
            Page.editingMovie := Page.editingMovie st;
            Page.alerts := Page.alerts st ++ ["Failed to save movie"%string] |}.
Proof.
  intros S prisma st s H.
  assert (Hp : present (Page.submit_body st) = false).
  { rewrite PageFacts.present_submit_body.
    destruct H as [H|[H|[H|(neg & H)]]];
      try (rewrite NumberFacts.parseInt_Str in H; injection H as H);
      rewrite H; simpl; rewrite ?andb_false_r; reflexivity. }
  pose proof (PageFacts.submit_body_coercible st) as Hc.
  split; [|split; reflexivity].
  unfold Page.fetch_api, Page.submit_method.
  destruct (Page.editingMovie st).
  - apply PUT_rejects; trivial. rewrite Hp. apply andb_false_r.
  - now apply POST_rejects.
Qed.

Lemma X10_witness_blank_form :
  Page.fetch_api client Page.mPOST
    (Obj (Page.submit_fields Page.blank)) one_movie
  = (Normal {| status := 400;
               body := ErrorJson "Missing required fields" |}, one_movie).
Proof.
  destruct (X10_page_submit_refused_by_the_check Db client
              {| Page.movies := []; Page.newMovie := Page.blank;
                 Page.editingMovie := None; Page.alerts := [] |}
              one_movie (or_introl eq_refl)) as [H _].
  exact H.
Defined.

(** X11: adding a movie from the page, end to end, whatever the store.
    With a title and a year that reads as a non-zero integer below 2^53
    in absolute value, the POST
    passes the check and calls the store's create with the title as
    typed, the names split and trimmed and the integer year.  When the
    create resolves with a record, the answer is read as ok, the record is
    appended to the list, the form is cleared; when it throws, the page
    raises "Failed to save movie" and keeps list and form. *)
Theorem X11_page_add_end_to_end :
  forall (S : Type) (prisma : MovieDelegate S) (st : Page.State) (z : Z)
         (s : S),
    Page.editingMovie st = None ->
    Page.form_title (Page.newMovie st) <> [] ->
    parseInt (Str (Page.form_year (Page.newMovie st))) = Some (Finite z) ->
    z <> 0 -> Z.abs z < 2 ^ 53 ->
    forall (out : completion Movie) (s' : S),
      create prisma
        {| data_title := Str (Page.form_title (Page.newMovie st));
           data_actors :=
             Arr (map Str (map trim
                    (split comma (Page.form_actors (Page.newMovie st)))));
           data_year := Finite z |} s = (out, s') ->
      exists resp,
        Page.fetch_api prisma (Page.submit_method st) (Page.submit_body st) s
        = (Normal resp, s')
        /\ match out with
           | Normal m =>
               Page.fetched resp = Some (Page.Ok m)
               /\ Page.handleSubmit st (Page.Ok m)
                  = {| Page.movies := Page.movies st ++ [m];
                       Page.newMovie := Page.blank;
                       Page.editingMovie := None;
                       Page.alerts := Page.alerts st |}
           | Throw _ =>
               Page.fetched resp = Some Page.NotOk
               /\ Page.handleSubmit st Page.NotOk
                  = {| Page.movies := Page.movies st;
                       Page.newMovie := Page.newMovie st;
                       Page.editingMovie := Page.editingMovie st;
                       Page.alerts :=
                         Page.alerts st ++ ["Failed to save movie"%string] |}
           end.
Proof.
  intros S prisma st z s He Ht Hy Hz Hb out s' Hc.
  assert (Hd : data_of (Page.submit_body st)
               = Some {| data_title :=
                           Str (Page.form_title (Page.newMovie st));
                         data_actors :=
                           Arr (map Str (map trim
                                  (split comma
                                     (Page.form_actors (Page.newMovie st)))));
                         data_year := Finite z |}).
  { apply PageFacts.data_of_submit_body; [exact Hy|]. right. now exists z. }
  assert (Hp : present (Page.submit_body st) = true).
  { rewrite PageFacts.present_submit_body.
    rewrite NumberFacts.parseInt_Str in Hy. injection Hy as Hy. rewrite Hy.
    destruct (Page.form_title (Page.newMovie st)); [congruence|].
    simpl. now apply negb_true_iff, Z.eqb_neq. }
  unfold Page.fetch_api, Page.submit_method. rewrite He.
  rewrite (POST_delegates prisma _ _ s Hp Hd), Hc.
  destruct out as [m|e]; simpl; eexists; (split; [reflexivity|]).
  - split; [reflexivity|]. unfold Page.handleSubmit. now rewrite He.
  - split; [reflexivity|]. unfold Page.handleSubmit, Page.alert.
    now rewrite He.
Qed.

Lemma X11_witness_inception_form :
  exists resp,
    Page.fetch_api client Page.mPOST
      (Obj (Page.submit_fields
              {| Page.form_title := lit "Inception";
                 Page.form_actors := lit "Leo, Tom";
                 Page.form_year := lit "2010" |})) empty
    = (Normal resp, one_movie)
    /\ Page.fetched resp = Some (Page.Ok (inception_movie (lit "0")))
    /\ Page.handleSubmit
         {| Page.movies := [];
            Page.newMovie := {| Page.form_title := lit "Inception";
                                Page.form_actors := lit "Leo, Tom";
                                Page.form_year := lit "2010" |};
            Page.editingMovie := None; Page.alerts := [] |}
         (Page.Ok (inception_movie (lit "0")))
       = {| Page.movies := [inception_movie (lit "0")];
            Page.newMovie := Page.blank;
            Page.editingMovie := None;
            Page.alerts := [] |}.
Proof.
  apply (X11_page_add_end_to_end Db client
           {| Page.movies := [];
              Page.newMovie := {| Page.form_title := lit "Inception";
                                  Page.form_actors := lit "Leo, Tom";
                                  Page.form_year := lit "2010" |};
              Page.editingMovie := None; Page.alerts := [] |}
           2010 empty eq_refl ltac:(discriminate) eq_refl
           ltac:(discriminate) eq_refl
           (Normal (inception_movie (lit "0"))) one_movie eq_refl).
Defined.

(** X12: saving an edited movie from the page, end to end, whatever the
    store.  With a record under edit whose [id] is not empty, a title and
    a year that reads as a non-zero integer below 2^53 in absolute value,
    the PUT passes the check and
    calls the store's update for that [id].  When the update resolves with
    a record, the entries of the list with the returned [id] become the
    returned record, the others stay, the form is cleared and editing
    ends; when it throws (the record is gone, or the store fails), the
    page raises "Failed to save movie" and stays in editing with its form
    and list. *)
Theorem X12_page_save_end_to_end :
  forall (S : Type) (prisma : MovieDelegate S) (st : Page.State)
         (edited : Movie) (z : Z) (s : S),
    Page.editingMovie st = Some edited ->
    id edited <> [] ->
    Page.form_title (Page.newMovie st) <> [] ->
    parseInt (Str (Page.form_year (Page.newMovie st))) = Some (Finite z) ->
    z <> 0 -> Z.abs z < 2 ^ 53 ->
    forall (out : completion Movie) (s' : S),
      update prisma (Str (id edited))
        {| data_title := Str (Page.form_title (Page.newMovie st));
           data_actors :=
             Arr (map Str (map trim
                    (split comma (Page.form_actors (Page.newMovie st)))));
           data_year := Finite z |} s = (out, s') ->
      exists resp,
        Page.fetch_api prisma (Page.submit_method st) (Page.submit_body st) s
        = (Normal resp, s')
        /\ match out with
           | Normal m =>
               Page.fetched resp = Some (Page.Ok m)
               /\ Page.handleSubmit st (Page.Ok m)
                  = {| Page.movies :=
                         map (fun x => if jsstring_eqb (id x) (id m)
                                       then m else x) (Page.movies st);
                       Page.newMovie := Page.blank;
                       Page.editingMovie := None;
                       Page.alerts := Page.alerts st |}
           | Throw _ =>
               Page.fetched resp = Some Page.NotOk
               /\ Page.handleSubmit st Page.NotOk
                  = {| Page.movies := Page.movies st;
                       Page.newMovie := Page.newMovie st;
                       Page.editingMovie := Some edited;
                       Page.alerts :=
                         Page.alerts st ++ ["Failed to save movie"%string] |}
           end.
Proof.
  intros S prisma st edited z s He Hi Ht Hy Hz Hb out s' Hc.
  assert (Hd : data_of (Page.submit_body st)
               = Some {| data_title :=
                           Str (Page.form_title (Page.newMovie st));
                         data_actors :=
                           Arr (map Str (map trim
                                  (split comma
                                     (Page.form_actors (Page.newMovie st)))));
                         data_year := Finite z |}).
  { apply PageFacts.data_of_submit_body; [exact Hy|]. right. now exists z. }
  assert (Hp : present (Page.submit_body st) = true).
  { rewrite PageFacts.present_submit_body.
    rewrite NumberFacts.parseInt_Str in Hy. injection Hy as Hy. rewrite Hy.
    destruct (Page.form_title (Page.newMovie st)); [congruence|].
    simpl. now apply negb_true_iff, Z.eqb_neq. }
  destruct (PageFacts.get_submit_body st) as (_ & _ & _ & Hid).
  rewrite He in Hid.
  assert (Hti : truthy (get (Page.submit_body st) "id") = true).
  { rewrite Hid. simpl. destruct (id edited); [congruence|reflexivity]. }
  unfold Page.fetch_api, Page.submit_method. rewrite He.
  rewrite (PUT_delegates prisma _ _ s Hti Hp Hd), Hid, Hc.
  destruct out as [m|e]; simpl; eexists; (split; [reflexivity|]).
  - split; [reflexivity|]. unfold Page.handleSubmit. now rewrite He.
  - split; [reflexivity|]. unfold Page.handleSubmit, Page.alert.
    now rewrite He.
Qed.

Lemma X12_witness_save_inception :
  exists resp,
    Page.fetch_api client Page.mPUT
      (Page.submit_body
         (Page.handleEdit
            {| Page.movies := [inception_movie (lit "0")];
               Page.newMovie := Page.blank;
               Page.editingMovie := None; Page.alerts := [] |}
            (inception_movie (lit "0")))) one_movie
    = (Normal resp, one_movie)
    /\ Page.fetched resp = Some (Page.Ok (inception_movie (lit "0")))
    /\ Page.handleSubmit
         (Page.handleEdit
            {| Page.movies := [inception_movie (lit "0")];
               Page.newMovie := Page.blank;
               Page.editingMovie := None; Page.alerts := [] |}
            (inception_movie (lit "0")))
         (Page.Ok (inception_movie (lit "0")))
       = {| Page.movies := [inception_movie (lit "0")];
            Page.newMovie := Page.blank;
            Page.editingMovie := None;
            Page.alerts := [] |}.
Proof.
  apply (X12_page_save_end_to_end Db client
           (Page.handleEdit
              {| Page.movies := [inception_movie (lit "0")];
                 Page.newMovie := Page.blank;
                 Page.editingMovie := None; Page.alerts := [] |}
              (inception_movie (lit "0")))
           (inception_movie (lit "0")) 2010 one_movie eq_refl
           ltac:(discriminate) ltac:(discriminate) eq_refl
           ltac:(discriminate) eq_refl
           (Normal (inception_movie (lit "0"))) one_movie eq_refl).
Defined.

(** X13: Edit, then save without touching the form.  For a record whose
    year is below 2^53 in absolute value, [handleEdit] puts the record in
    the form and the next request is a PUT that carries the record's own
    [id], title and year; it carries the record's own actors
    too when there is at least one, none holds a comma and none has white
    space at its ends.  A record with no actors does not come back as it
    was: its empty list is sent as the one empty name. *)
Theorem X13_edit_then_save_sends_the_record :
  forall (st : Page.State) (movie : Movie),
    Z.abs (year movie) < 2 ^ 53 ->
    Page.submit_method (Page.handleEdit st movie) = Page.mPUT
    /\ get (Page.submit_body (Page.handleEdit st movie)) "id"
       = Str (id movie)
    /\ get (Page.submit_body (Page.handleEdit st movie)) "title"
       = Str (title movie)
    /\ get (Page.submit_body (Page.handleEdit st movie)) "year"
       = Num (NumberToString (Finite (year movie)))
    /\ parseInt (get (Page.submit_body (Page.handleEdit st movie)) "year")
       = Some (Finite (year movie))
    /\ (actors movie <> [] ->
        Forall (fun n => ~ In comma n /\ trim n = n) (actors movie) ->
        get (Page.submit_body (Page.handleEdit st movie)) "actors"
        = Arr (map Str (actors movie)))
    /\ (actors movie = [] ->
        get (Page.submit_body (Page.handleEdit st movie)) "actors"
        = Arr [Str []]).
Proof.
  intros st movie Hb.
  destruct (PageFacts.get_submit_body (Page.handleEdit st movie))
    as (Ht & Ha & Hy & Hi).
  destruct (NumberFacts.parseInt_NumberToString (year movie) Hb)
    as [P1 P2].
  assert (P1' : parseDigits (NumberToString (Finite (year movie)))
                = Finite (year movie))
    by (rewrite NumberFacts.parseInt_Str in P1; congruence).
  clear P1. rename P1' into P1.
  assert (Hyear : get (Page.submit_body (Page.handleEdit st movie)) "year"
                  = Num (NumberToString (Finite (year movie)))).
  { rewrite Hy.
    change (Page.form_year (Page.newMovie (Page.handleEdit st movie)))
      with (NumberToString (Finite (year movie))).
    now rewrite P1. }
  assert (Hactors :
            get (Page.submit_body (Page.handleEdit st movie)) "actors"
            = Arr (map Str (map trim
                     (split comma (join (lit ", ") (actors movie)))))).
  { exact Ha. }
  split; [reflexivity|]. split; [exact Hi|]. split; [exact Ht|].
  split; [exact Hyear|]. split; [rewrite Hyear; exact P2|]. split.
  - intros Hne Hf. rewrite Hactors. now rewrite StringFacts.split_join.
  - intros He. rewrite Hactors, He. reflexivity.
Qed.

Lemma X13_witness_inception :
  get (Page.submit_body
         (Page.handleEdit
            {| Page.movies := []; Page.newMovie := Page.blank;
               Page.editingMovie := None; Page.alerts := [] |}
            (inception_movie (lit "0")))) "actors"
  = Arr [Str (lit "Leo"); Str (lit "Tom")].
Proof.
  destruct (X13_edit_then_save_sends_the_record
              {| Page.movies := []; Page.newMovie := Page.blank;
                 Page.editingMovie := None; Page.alerts := [] |}
              (inception_movie (lit "0")) eq_refl)
    as (_ & _ & _ & _ & _ & H & _).
  apply H; [discriminate|].
  repeat constructor; try reflexivity;
    intros Hin; simpl in Hin; repeat destruct Hin as [Hin|Hin];
    try discriminate Hin; try contradiction.
Defined.

(** X14: the names the handlers make of any string of actors survive an
    edit: joined with ", " by [handleEdit] and split and trimmed again by
    [handleSubmit] (or by the handler), they come back the same, in the
    same order. *)
Theorem X14_normalized_names_survive_an_edit :
  forall s : jsstring,
    map trim
      (split comma (join (lit ", ") (map trim (split comma s))))
    = map trim (split comma s).
Proof.
  intros s. apply StringFacts.split_join.
  - intros H. apply map_eq_nil in H. now apply (split_not_nil comma s).
  - apply Forall_map.
    eapply Forall_impl; [|apply (StringFacts.split_no_sep comma s)].
    intros seg Hseg. split.
    + intros Hin. apply Hseg. now apply StringFacts.trim_In.
    + apply StringFacts.trim_idem.
Qed.

(** X15: the list the page loads.  [fetchMovies] does not look at the
    status: when the store's findMany resolves, the page's list is the
    list the store returned; when it throws, GET answers 500 with an
    [{error}] object, which is not an array, and the page shows an empty
    list without any notice.  When the fetch itself throws, the page's
    state is kept. *)
Theorem X15_page_load_follows_the_store :
  forall (S : Type) (prisma : MovieDelegate S) (st : Page.State) (s : S),
    (exists resp s',
       Page.fetch_api prisma Page.mGET Null s = (Normal resp, s')
       /\ match findMany prisma s with
          | (Normal l, _) =>
              Page.fetchMovies st (Normal (body resp))
              = {| Page.movies := l; Page.newMovie := Page.newMovie st;
                   Page.editingMovie := Page.editingMovie st;
                   Page.alerts := Page.alerts st |}
          | (Throw _, _) =>
              status resp = 500
              /\ Page.fetchMovies st (Normal (body resp))
                 = {| Page.movies := []; Page.newMovie := Page.newMovie st;
                      Page.editingMovie := Page.editingMovie st;
                      Page.alerts := Page.alerts st |}
          end)
    /\ forall e, Page.fetchMovies st (Throw e) = st.
Proof.
  intros S prisma st s. split; [|reflexivity].
  unfold Page.fetch_api. rewrite GET_delegates.
  destruct (findMany prisma s) as [[l|e] s']; simpl;
    eexists; eexists; (split; [reflexivity|]); [|split]; reflexivity.
Qed.

(** X16: deleting from the page, end to end, whatever the store.  The
    request carries the [id] alone.  With an empty [id] the server
    answers 400 "Missing movie ID" without calling the store; otherwise
    it calls the store's delete for that [id]: when the delete resolves
    the answer is ok and the entries with that [id] leave the list, when
    it throws the answer is not ok, the page raises "Failed to delete
    movie" and the list stays. *)
Theorem X16_page_delete_end_to_end :
  forall (S : Type) (prisma : MovieDelegate S) (st : Page.State)
         (i : jsstring) (s : S),
    (i = [] ->
     Page.fetch_api prisma Page.mDELETE (Page.delete_body i) s
     = (Normal {| status := 400; body := ErrorJson "Missing movie ID" |}, s))
    /\ (i <> [] ->
        forall (out : completion Movie) (s' : S),
          delete prisma (Str i) s = (out, s') ->
          exists resp,
            Page.fetch_api prisma Page.mDELETE (Page.delete_body i) s
            = (Normal resp, s')
            /\ match out with
               | Normal _ =>
                   Page.ok resp = true
                   /\ Page.handleDelete st i (Page.ok resp)
                      = {| Page.movies :=
                             filter (fun m => negb (jsstring_eqb (id m) i))
                               (Page.movies st);
                           Page.newMovie := Page.newMovie st;
                           Page.editingMovie := Page.editingMovie st;
                           Page.alerts := Page.alerts st |}
               | Throw _ =>
                   Page.ok resp = false
                   /\ Page.handleDelete st i (Page.ok resp)
                      = {| Page.movies := Page.movies st;
                           Page.newMovie := Page.newMovie st;
                           Page.editingMovie := Page.editingMovie st;
                           Page.alerts :=
                             Page.alerts st
                             ++ ["Failed to delete movie"%string] |}
               end).
Proof.
  intros S prisma st i s. split.
  - intros ->. reflexivity.
  - intros Hne out s' Hd. unfold Page.fetch_api.
    rewrite DELETE_delegates
      by (change (get (Page.delete_body i) "id") with (Str i);
          destruct i; [congruence|reflexivity]).
    change (get (Page.delete_body i) "id") with (Str i). rewrite Hd.
    destruct out as [m|e]; simpl; eexists; (split; [reflexivity|]);
      split; reflexivity.
Qed.

Lemma X16_witness_delete_listed_movie :
  exists resp,
    Page.fetch_api client Page.mDELETE (Page.delete_body (lit "0")) one_movie
    = (Normal resp, {| collection := []; minted := 1 |})
    /\ Page.ok resp = true
    /\ Page.handleDelete
         {| Page.movies := [inception_movie (lit "0")];
            Page.newMovie := Page.blank; Page.editingMovie := None;
            Page.alerts := [] |} (lit "0") (Page.ok resp)
       = {| Page.movies := []; Page.newMovie := Page.blank;
            Page.editingMovie := None; Page.alerts := [] |}.
Proof.
  destruct (X16_page_delete_end_to_end Db client
              {| Page.movies := [inception_movie (lit "0")];
                 Page.newMovie := Page.blank; Page.editingMovie := None;
                 Page.alerts := [] |} (lit "0") one_movie) as [_ H].
  exact (H ltac:(discriminate) (Normal (inception_movie (lit "0")))
           {| collection := []; minted := 1 |} eq_refl).
Defined.

(** X17: deleting the record that is being edited does not end the
    editing.  After Edit on a record and a successful Delete of the same
    record, no entry of the list has its [id], yet the page still holds
    the record as the one edited, the form still shows it, and the next
    submit is a PUT for the deleted [id]. *)
Theorem X17_delete_keeps_the_editing_state :
  forall (st : Page.State) (movie : Movie),
    (forall m,
       In m (Page.movies
               (Page.handleDelete (Page.handleEdit st movie) (id movie) true))
       -> id m <> id movie)
    /\ Page.editingMovie
         (Page.handleDelete (Page.handleEdit st movie) (id movie) true)
       = Some movie
    /\ Page.newMovie
         (Page.handleDelete (Page.handleEdit st movie) (id movie) true)
       = Page.newMovie (Page.handleEdit st movie)
    /\ Page.submit_method
         (Page.handleDelete (Page.handleEdit st movie) (id movie) true)
       = Page.mPUT
    /\ get (Page.submit_body
              (Page.handleDelete (Page.handleEdit st movie) (id movie) true))
         "id" = Str (id movie).
Proof.
  intros st movie. split; [|repeat split].
  intros m Hin. simpl in Hin. apply filter_In in Hin as [_ H].
  apply negb_true_iff in H. now apply StoreFacts.jsstring_eqb_neq.
Qed.

(** X18: what a successful save does to the list when a record is under
    edit.  The list keeps its length and its identifiers, position by
    position; and when no entry has the returned record's [id] the list is
    left exactly as it was: the returned record is not added. *)
Theorem X18_save_keeps_the_identifiers :
  forall (st : Page.State) (edited movie : Movie),
    Page.editingMovie st = Some edited ->
    map id (Page.movies (Page.handleSubmit st (Page.Ok movie)))
    = map id (Page.movies st)
    /\ ((forall m, In m (Page.movies st) -> id m <> id movie) ->
        Page.movies (Page.handleSubmit st (Page.Ok movie)) = Page.movies st).
Proof.
  intros st edited movie He. simpl. rewrite He. split.
  - rewrite map_map. apply map_ext_in. intros m _.
    destruct (jsstring_eqb (id m) (id movie)) eqn:E; trivial.
    apply StoreFacts.jsstring_eqb_eq in E. congruence.
  - intros Hno. rewrite <- (map_id (Page.movies st)) at 2.
    apply map_ext_in. intros m Hin.
    destruct (jsstring_eqb (id m) (id movie)) eqn:E; trivial.
    apply StoreFacts.jsstring_eqb_eq in E. now destruct (Hno m Hin).
Qed.

Lemma X18_witness_stale_list :
  Page.movies
    (Page.handleSubmit
       {| Page.movies := [inception_movie (lit "0")];
          Page.newMovie := Page.blank;
          Page.editingMovie := Some (inception_movie (lit "1"));
          Page.alerts := [] |}
       (Page.Ok (inception_movie (lit "1"))))
  = [inception_movie (lit "0")].
Proof.
  destruct (X18_save_keeps_the_identifiers
              {| Page.movies := [inception_movie (lit "0")];
                 Page.newMovie := Page.blank;
                 Page.editingMovie := Some (inception_movie (lit "1"));
                 Page.alerts := [] |}
              (inception_movie (lit "1")) (inception_movie (lit "1"))
              eq_refl) as [_ H].
  apply H. intros m [<-|[]]. discriminate.
Defined.

(** X19: what a successful delete does to the list.  Deleting an [id]
    no entry has leaves the list exactly as it was; deleting the same
    [id] again changes nothing more; and the list shrinks by the number
    of entries that had the [id]. *)
Theorem X19_delete_filters_the_list :
  forall (st : Page.State) (i : jsstring),
    ((forall m, In m (Page.movies st) -> id m <> i) ->
     Page.movies (Page.handleDelete st i true) = Page.movies st)
    /\ Page.movies (Page.handleDelete (Page.handleDelete st i true) i true)
       = Page.movies (Page.handleDelete st i true)
    /\ (List.length (Page.movies (Page.handleDelete st i true))
        + count (fun m => jsstring_eqb (id m) i) (Page.movies st)
        = List.length (Page.movies st))%nat.
Proof.
  intros st i. simpl. repeat split.
  - intros Hno. induction (Page.movies st) as [|m l IH]; simpl; trivial.
    assert (E : jsstring_eqb (id m) i = false).
    { apply StoreFacts.jsstring_eqb_neq, Hno. now left. }
    rewrite E. simpl. f_equal. apply IH. intros x Hx. apply Hno. now right.
  - induction (Page.movies st) as [|m l IH]; simpl; trivial.
    destruct (jsstring_eqb (id m) i) eqn:E; simpl; trivial.
    rewrite E. simpl. now f_equal.
  - unfold count.
    induction (Page.movies st) as [|m l IH]; simpl; trivial.
    destruct (jsstring_eqb (id m) i); simpl; lia.
Qed.

Lemma X19_witness_unknown_id :
  Page.movies
    (Page.handleDelete
       {| Page.movies := [inception_movie (lit "0")];
          Page.newMovie := Page.blank; Page.editingMovie := None;
          Page.alerts := [] |} (lit "7") true)
  = [inception_movie (lit "0")].
Proof.
  destruct (X19_delete_filters_the_list
              {| Page.movies := [inception_movie (lit "0")];
                 Page.newMovie := Page.blank; Page.editingMovie := None;
                 Page.alerts := [] |} (lit "7")) as [H _].
  apply H. intros m [<-|[]]. discriminate.
Defined.

(** X21: an answer that arrives after the list has changed.
    [handleSubmit] and [handleDelete] build the new list from the list of
    the render that started them, not from the list of the time the
    answer arrives: with no record under edit a created record is
    appended to that older list, so a record listed since then that the
    older list lacks is no longer listed; a delete likewise filters the
    older list.  When nothing changed in between, the result is the one
    [handleSubmit] and [handleDelete] describe. *)
Theorem X21_late_answer_uses_the_older_list :
  forall (closed now : Page.State) (m : Movie) (i : jsstring),
    Page.editingMovie closed = None ->
    Page.movies (Page.handleSubmit_at closed now (Page.Ok m))
    = Page.movies closed ++ [m]
    /\ (forall x,
          In x (Page.movies now) -> ~ In x (Page.movies closed) -> x <> m ->
          ~ In x (Page.movies (Page.handleSubmit_at closed now (Page.Ok m))))
    /\ Page.movies (Page.handleDelete_at closed now i true)
       = filter (fun x => negb (jsstring_eqb (id x) i)) (Page.movies closed)
    /\ Page.handleSubmit_at closed closed (Page.Ok m)
       = Page.handleSubmit closed (Page.Ok m)
    /\ Page.handleDelete_at closed closed i true
       = Page.handleDelete closed i true.
Proof.
  intros closed now m i He.
  assert (E : Page.movies (Page.handleSubmit_at closed now (Page.Ok m))
              = Page.movies closed ++ [m]).
  { unfold Page.handleSubmit_at. now rewrite He. }
  split; [exact E|]. split; [|repeat split].
  intros x _ Hold Hx Hin. rewrite E in Hin.
  apply in_app_or in Hin as [Hin|[Hin|[]]]; [now apply Hold|].
  now apply Hx.
Qed.

Lemma X21_witness_two_adds :
  Page.movies
    (Page.handleSubmit_at fresh_page
       (Page.handleSubmit_at fresh_page fresh_page
          (Page.Ok (inception_movie (lit "0"))))
       (Page.Ok (inception_movie (lit "1"))))
  = [] ++ [inception_movie (lit "1")].
Proof.
  destruct (X21_late_answer_uses_the_older_list fresh_page
              (Page.handleSubmit_at fresh_page fresh_page
                 (Page.Ok (inception_movie (lit "0"))))
              (inception_movie (lit "1")) [] eq_refl) as [H _].
  exact H.
Defined.

Lemma split_chars sep s :
  Forall (fun seg => forall c, In c seg -> In c s) (split sep s).
Proof.
  induction s as [|x s IH]; simpl.
  - constructor; [intros c []|constructor].
  - destruct (x =? sep)%N.
    + constructor; [intros c []|].
      eapply Forall_impl; [|exact IH]. intros seg H c Hc. right. now apply H.
    + destruct (split sep s) as [|seg rest].
      * constructor; [|constructor]. intros c [<-|[]]. now left.
      * inversion IH as [|? ? Hseg Hrest]; subst. constructor.
        -- intros c [<-|Hc]; [now left|right; now apply Hseg].
        -- eapply Forall_impl; [|exact Hrest].
           intros sg H c Hc. right. now apply H.
Qed.

Lemma trim_blank seg :
  Forall (fun c => isWhiteSpace c = true) seg -> trim seg = [].
Proof.
  intros H. unfold trim, trimStart.
  assert (E : dropWhile isWhiteSpace seg = []).
  { induction H as [|c l Hc _ IH]; simpl; trivial. now rewrite Hc. }
  now rewrite E.
Qed.

Lemma map_all_nil {A} (f : A -> jsstring) l :
  Forall (fun x => f x = []) l -> map f l = repeat [] (List.length l).
Proof.
  induction 1 as [|x l Hx _ IH]; simpl; trivial. now rewrite Hx, IH.
Qed.

(** X20: a string of actors made of nothing but white space and commas
    is not empty, so it passes the required-field check, and every name
    made of it is empty: with a truthy title and a truthy year that
    [parseInt] accepts (its conversion to text does not throw), POST and
    PUT call the store's write with one empty name per segment and the
    parsed year, whatever the store. *)
Theorem X20_blank_actors_pass_the_check :
  forall (S : Type) (prisma : MovieDelegate S) (b : value) (a : jsstring)
         (parsed : number) (s : S),
    get b "actors" = Str a -> a <> [] ->
    Forall (fun c => isWhiteSpace c = true \/ c = comma) a ->
    truthy (get b "title") = true -> truthy (get b "year") = true ->
    parseInt (get b "year") = Some parsed ->
    map trim (split comma a)
    = repeat [] (Datatypes.S (count_occ N.eq_dec a comma))
    /\ POST prisma (request b) s
       = settle created (failure "Failed to add movie")
           (create prisma
              {| data_title := get b "title";
                 data_actors :=
                   Arr (repeat (Str [])
                          (Datatypes.S (count_occ N.eq_dec a comma)));
                 data_year := parsed |} s)
    /\ (truthy (get b "id") = true ->
        PUT prisma (request b) s
        = settle updated (failure "Failed to update movie")
            (update prisma (get b "id")
               {| data_title := get b "title";
                  data_actors :=
                    Arr (repeat (Str [])
                           (Datatypes.S (count_occ N.eq_dec a comma)));
                  data_year := parsed |} s)).
Proof.
  intros S prisma b a parsed s Ha Hne Hblank Ht Hy Hparsed.
  assert (Hnames : map trim (split comma a)
                   = repeat [] (Datatypes.S (count_occ N.eq_dec a comma))).
  { rewrite <- StringFacts.split_length. apply map_all_nil.
    pose proof (split_chars comma a) as Hc.
    pose proof (StringFacts.split_no_sep comma a) as Hs.
    rewrite Forall_forall in *. intros seg Hin. apply trim_blank.
    rewrite Forall_forall. intros c Hcin.
    destruct (Hblank c (Hc seg Hin c Hcin)) as [Hw| ->]; trivial.
    now destruct (Hs seg Hin). }
  assert (Hp : present b = true).
  { unfold present. rewrite Ht, Ha, Hy. simpl.
    destruct a; [congruence|reflexivity]. }
  assert (Hd : data_of b
               = Some {| data_title := get b "title";
                         data_actors :=
                           Arr (repeat (Str [])
                                  (Datatypes.S (count_occ N.eq_dec a comma)));
                         data_year := parsed |}).
  { unfold data_of. rewrite Hparsed, Ha. cbn [actors_data].
    rewrite Hnames. now rewrite map_repeat. }
  split; [exact Hnames|]. split.
  - exact (POST_delegates prisma b _ s Hp Hd).
  - intros Hi. exact (PUT_delegates prisma b _ s Hi Hp Hd).
Qed.

Lemma X20_witness_space_comma_space :
  map trim (split comma (lit " , ")) = [[]; []]
  /\ POST client
       (request (movie_body (Str (lit "T")) (Str (lit " , "))
                   (Str (lit "2000")))) empty
     = (Normal (created {| id := lit "0"; title := lit "T";
                           actors := [[]; []]; year := 2000 |}),
        {| collection := [{| id := lit "0"; title := lit "T";
                             actors := [[]; []]; year := 2000 |}];
           minted := 1 |}).
Proof.
  destruct (X20_blank_actors_pass_the_check Db client
              (movie_body (Str (lit "T")) (Str (lit " , "))
                 (Str (lit "2000")))
              (lit " , ") (Finite 2000) empty eq_refl)
    as (Hn & Hpost & _);
    try reflexivity; try discriminate.
  - repeat constructor; first [now left | now right].
  - split; [exact Hn|]. rewrite Hpost. reflexivity.
Defined.
